(** * Sitemap generator: the crawler of [main.py], embedded and verified

    The development follows [src/main.py]:
    - [check_robots_txt]   robots.txt evaluation (fail-open on exceptions),
    - [get_internal_links] the recursive same-domain crawl,
    - [generate_sitemap]   request validation, robots gate, directory,
                           crawl, XML tree, file.

    The network, the file system, [urllib.parse] and the HTML parser are
    outside the program: they are the parameters of [Section Crawler].
    A call on the network or the file system answers by the state of the
    world and may raise; [requests.get] and [urlopen] are seen at the URL
    the program passes, whatever redirects they follow inside.  The
    visited collection is a Python [set] of strings, here a
    [gset string]. *)

From Stdlib Require Import ZArith String Ascii List Lia.
From stdpp Require Import gmap strings list.

Local Open Scope Z_scope.
Local Open Scope string_scope.

#[local] Set Warnings "-clear-no-such-hyp".

(** ** String operations used by the program *)

Module Str.

(** [s.endswith(ext)] *)
Fixpoint endswith (s ext : string) : bool :=
  if String.eqb s ext then true
  else match s with
       | EmptyString => false
       | String _ s' => endswith s' ext
       end.

(** [sub in s] *)
Fixpoint contains (sub s : string) : bool :=
  if String.prefix sub s then true
  else match s with
       | EmptyString => false
       | String _ s' => contains sub s'
       end.

Definition lower_ascii (c : ascii) : ascii :=
  let n := nat_of_ascii c in
  if ((65 <=? n) && (n <=? 90))%nat then ascii_of_nat (n + 32) else c.

(** [s.lower()], on ASCII text *)
Fixpoint lower (s : string) : string :=
  match s with
  | EmptyString => EmptyString
  | String c s' => String (lower_ascii c) (lower s')
  end.

(** [s.replace(a, b)] for one-character [a] and [b] *)
Fixpoint replace_char (a b : ascii) (s : string) : string :=
  match s with
  | EmptyString => EmptyString
  | String c s' => String (if Ascii.eqb c a then b else c) (replace_char a b s')
  end.

End Str.

(** ** Configuration (lines 17-20) *)

Definition TIMEOUT : Z := 10.
Definition CRAWL_DELAY : Z := 2.
Definition MAX_PAGES_LIMIT : Z := 500.

(** The suffixes tested at lines 69-72. *)
Definition skipped_extensions : list string :=
  [".pdf"; ".jpg"; ".jpeg"; ".png"; ".gif"; ".css"; ".js";
   ".zip"; ".tar"; ".gz"; ".doc"; ".docx"; ".xls"; ".xlsx"].

(** [any(href.endswith(ext) for ext in [...])] *)
Definition has_skipped_extension (href : string) : bool :=
  existsb (Str.endswith href) skipped_extensions.

(** ** Data *)

(** [class SitemapRequest]; [url] is [str(request.url)]. *)
Record SitemapRequest := mkRequest {
  req_url : string;
  req_max_pages : Z
}.

(** The six components of [urllib.parse.ParseResult]. *)
Record ParseResult := mkParse {
  scheme : string;
  netloc : string;
  path : string;
  params : string;
  query : string;
  fragment : string
}.

(** What [requests.get] hands back: it raises (timeout, connection
    error), or it returns a response of which the program reads the
    status, the [content-type] header and, through BeautifulSoup, the
    [href] values of the anchors [soup.find_all('a', href=True)]. *)
Inductive Response :=
| RequestException
| HTTPResponse (status_code : Z) (content_type : option string) (hrefs : list string).

(** [response.raise_for_status()] raises on 4xx and 5xx. *)
Definition raises_for_status (status_code : Z) : bool :=
  ((400 <=? status_code) && (status_code <? 600))%Z.

(** ['text/html' in response.headers.get('content-type', '').lower()] *)
Definition is_html (content_type : option string) : bool :=
  Str.contains "text/html" (Str.lower (default "" content_type)).

(** What [rp.read()] meets when it opens the robots.txt URL
    ([urllib.robotparser.RobotFileParser.read]): [urlopen] raises a
    [URLError] (host unreachable, name not resolved, timeout), it raises an
    [HTTPError] carrying a status code, the body is not UTF-8 so that
    [raw.decode] raises, or the body is parsed into rules.  Of the rules
    only the two answers the program asks for are kept: the allowance of
    a URL for agent ["*"] and the [Crawl-delay] of that agent. *)
Inductive RobotsRead :=
| URLError
| HTTPError (code : Z)
| DecodeError
| Parsed (allowance : string -> bool) (delay : option Z).

(** Observable events, each with the time it takes in milliseconds. *)
Inductive Event :=
| RobotsFetch (robots_url : string) (elapsed : Z)
| PageFetch (url : string) (elapsed : Z)
| Sleep (duration : Z).

(** The XML tree of [xml.etree.ElementTree]. *)
#[warnings="-register-all"]
Inductive Element :=
| mkElement (tag : string) (attrib : list (string * string))
            (text : option string) (children : list Element).

Definition tag_of (e : Element) : string :=
  let 'mkElement t _ _ _ := e in t.
Definition attrib_of (e : Element) : list (string * string) :=
  let 'mkElement _ a _ _ := e in a.
Definition text_of (e : Element) : option string :=
  let 'mkElement _ _ t _ := e in t.
Definition children_of (e : Element) : list Element :=
  let 'mkElement _ _ _ c := e in c.

(** [ET.SubElement(parent, tag)] appends a fresh child; the model takes
    the finished child. *)
Definition SubElement (parent child : Element) : Element :=
  let 'mkElement t a x c := parent in mkElement t a x (c ++ [child]).

(** The result of [generate_sitemap]: an [HTTPException] it raises, an
    exception nothing catches (an [OSError] from [os.makedirs] or
    [tree.write], which the framework answers with status 500), or the JSON
    answer together with the tree written to [file_path]. *)
Inductive Outcome :=
| HTTPException (status_code : Z) (detail : string)
| InternalServerError
| Success (file_path : string) (document : Element) (links : gset string)
          (url_count : Z) (crawl_delay_used : Z).

(** The job was answered with the JSON of lines 129-134. *)
Definition succeeded (o : Outcome) : bool :=
  match o with
  | Success _ _ _ _ _ => true
  | _ => false
  end.

(** The links a successful run hands to the sitemap; none after an error. *)
Definition links_of (o : Outcome) : gset string :=
  match o with
  | Success _ _ links _ _ => links
  | _ => ∅
  end.

(** The texts of the [loc] grandchildren of a document, in order. *)
Definition loc_texts (document : Element) : list string :=
  flat_map
    (fun url_element =>
       flat_map
         (fun loc => if String.eqb (tag_of loc) "loc"
                     then match text_of loc with Some t => [t] | None => [] end
                     else [])
         (children_of url_element))
    (children_of document).

(** The URLs listed in the sitemap a run wrote; none after an error. *)
Definition sitemap_locs (o : Outcome) : list string :=
  match o with
  | Success _ document _ _ _ => loc_texts document
  | _ => []
  end.

(** The ["file_path"] field of the answer. *)
Definition file_path_of (o : Outcome) : option string :=
  match o with
  | Success file_path _ _ _ _ => Some file_path
  | _ => None
  end.

(** The ["crawl_delay_used"] field of the answer. *)
Definition crawl_delay_used_of (o : Outcome) : option Z :=
  match o with
  | Success _ _ _ _ delay => Some delay
  | _ => None
  end.

Definition is_page_fetch (e : Event) : bool :=
  match e with
  | PageFetch _ _ => true
  | _ => false
  end.

(** The page requests of a log, in order. *)
Definition page_fetches (events : list Event) : list Event :=
  filter (fun e => is_page_fetch e = true) events.

(** The time each request of a log starts at, on a clock that starts at
    [now] and advances by what every event takes. *)
Fixpoint fetch_starts (now : Z) (events : list Event) : list (string * Z) :=
  match events with
  | [] => []
  | RobotsFetch u elapsed :: events => (u, now) :: fetch_starts (now + elapsed) events
  | PageFetch u elapsed :: events => (u, now) :: fetch_starts (now + elapsed) events
  | Sleep duration :: events => fetch_starts (now + duration) events
  end.

(** The gaps between consecutive start times. *)
Fixpoint gaps (starts : list (string * Z)) : list Z :=
  match starts with
  | (_, t1) :: (((_, t2) :: _) as rest) => (t2 - t1) :: gaps rest
  | _ => []
  end.

(** The URLs of the page requests of a log, in order. *)
Definition fetched_urls (events : list Event) : list string :=
  flat_map (fun e => match e with PageFetch u _ => [u] | _ => [] end) events.

(** The number of anchors the program reads from a response. *)
Definition anchors_of (r : Response) : nat :=
  match r with
  | HTTPResponse _ _ hrefs => length hrefs
  | RequestException => 0%nat
  end.

(** The total of the sleeps of a log, in milliseconds. *)
Definition slept (events : list Event) : Z :=
  fold_right (fun e total => match e with Sleep d => d + total | _ => total end) 0 events.

(** What the traversal may add to a log: a page request, or a sleep of
    [CRAWL_DELAY] seconds. *)
Definition is_crawl_event (e : Event) : bool :=
  match e with
  | PageFetch _ _ => true
  | Sleep d => (d =? 1000 * CRAWL_DELAY)%Z
  | RobotsFetch _ _ => false
  end.

(** ** [urllib.robotparser.RobotFileParser], as [check_robots_txt] drives it

    The parser object after [RobotFileParser()]: both flags off, never
    checked, no entries (so every URL is allowed and no delay is known). *)
Module RobotFileParser.

Record t := mk {
  disallow_all : bool;
  allow_all : bool;
  last_checked : bool;
  allowance : string -> bool;
  delay : option Z
}.

Definition new : t := mk false false false (fun _ => true) None.

(** [rp.read()]; [None] when the call raises.  An [HTTPError] is caught
    inside [read]: 401 and 403 set [disallow_all], the other 4xx codes set
    [allow_all], anything else leaves the parser unread. *)
Definition read (rp : t) (r : RobotsRead) : option t :=
  match r with
  | URLError => None
  | DecodeError => None
  | HTTPError code =>
      if ((code =? 401) || (code =? 403))%Z
      then Some (mk true (allow_all rp) (last_checked rp) (allowance rp) (delay rp))
      else if ((400 <=? code) && (code <? 500))%Z
      then Some (mk (disallow_all rp) true (last_checked rp) (allowance rp) (delay rp))
      else Some rp
  | Parsed a d => Some (mk (disallow_all rp) (allow_all rp) true a d)
  end.

(** [rp.can_fetch("*", url)] *)
Definition can_fetch (rp : t) (url : string) : bool :=
  if disallow_all rp then false
  else if allow_all rp then true
  else if negb (last_checked rp) then false
  else allowance rp url.

(** [rp.crawl_delay("*")] *)
Definition crawl_delay (rp : t) : option Z :=
  if negb (last_checked rp) then None else delay rp.

End RobotFileParser.

(** [x or d] on an optional integer: [None] and [0] are falsy. *)
Definition py_or (x : option Z) (d : Z) : Z :=
  match x with
  | Some v => if (v =? 0)%Z then d else v
  | None => d
  end.

(** ** The program *)

Module Main.
Section Crawler.

(** The outside world: the state of the network and of the crawled site. *)
Context {World : Type}.

(** [urllib.parse.urlparse] *)
Variable urlparse : string -> ParseResult.
(** [urllib.parse.urljoin]; [None] when it raises [ValueError]. *)
Variable urljoin : string -> string -> option string.
(** [requests.get(url, timeout=TIMEOUT, headers=...)]: the new state of
    the world, the milliseconds the call took and what came back. *)
Variable requests_get : World -> string -> World * Z * Response.
(** The network read behind [rp.read()]. *)
Variable urlopen : World -> string -> World * Z * RobotsRead.
(** [os.makedirs(path, exist_ok=True)]: the new state of the world and
    whether the call returned ([false]: it raised, an [OSError] say). *)
Variable os_makedirs : World -> string -> World * bool.
(** [tree.write(path, encoding='utf-8', xml_declaration=True)] for the
    tree rooted at the element: the new state of the world and whether
    the call returned ([false]: it raised, an [OSError] say, as for a file
    name that is too long). *)
Variable tree_write : World -> string -> Element -> World * bool.

(** The state threaded through the program: the world and the log of
    what the program did to it, oldest event first. *)
Record Sim := mkSim {
  world : World;
  log : list Event
}.

Definition emit (st : Sim) (w : World) (e : Event) : Sim :=
  mkSim w (log st ++ [e]).

(** [time.sleep(seconds)] *)
Definition sleep (st : Sim) (seconds : Z) : Sim :=
  emit st (world st) (Sleep (1000 * seconds)).

(** [requests.get] at line 46. *)
Definition fetch_page (st : Sim) (url : string) : Sim * Response :=
  let '(w, elapsed, response) := requests_get (world st) url in
  (emit st w (PageFetch url elapsed), response).

(** [os.makedirs] at line 104 and [tree.write] at line 127. They change
    the world; they are not network events and leave the log as it is. *)
Definition makedirs (st : Sim) (path : string) : Sim * bool :=
  let '(w, returned) := os_makedirs (world st) path in
  (mkSim w (log st), returned).

Definition write_tree (st : Sim) (path : string) (root : Element) : Sim * bool :=
  let '(w, returned) := tree_write (world st) path root in
  (mkSim w (log st), returned).

(** Lines 26-38. *)
Definition check_robots_txt (st : Sim) (url : string) : Sim * (bool * Z) :=
  let parsed_url := urlparse url in
  let robots_url := scheme parsed_url ++ "://" ++ netloc parsed_url ++ "/robots.txt" in
  let rp := RobotFileParser.new in
  let '(w, elapsed, r) := urlopen (world st) robots_url in
  let st := emit st w (RobotsFetch robots_url elapsed) in
  match RobotFileParser.read rp r with
  | Some rp =>
      let can_fetch := RobotFileParser.can_fetch rp url in
      let crawl_delay := py_or (RobotFileParser.crawl_delay rp) CRAWL_DELAY in
      (st, (can_fetch, crawl_delay))
  | None => (st, (true, CRAWL_DELAY))
  end.

(** The condition of lines 66-72. *)
Definition is_new_internal_page (base_domain : string) (visited : gset string)
    (href : string) : bool :=
  let parsed_href := urlparse href in
  String.eqb (netloc parsed_href) base_domain
  && existsb (String.eqb (scheme parsed_href)) ["http"; "https"]
  && negb (bool_decide (href ∈ visited))
  && negb (has_skipped_extension href).

(** The loop of lines 61-76 over the anchors of one page; [recurse] is
    the recursive call of line 76.  The recursive call mutates and
    returns the very set object it is given, so [visited.update(...)]
    adds nothing: the set after the call is the set it returned.  A
    [ValueError] from [urljoin] leaves the loop for the [except] clause
    of line 77, which keeps the set as it is. *)
Fixpoint for_links
    (recurse : Sim -> string -> gset string -> option (Sim * gset string))
    (url base_domain : string) (links : list string)
    (st : Sim) (visited : gset string) : option (Sim * gset string) :=
  match links with
  | [] => Some (st, visited)
  | link :: links =>
      match urljoin url link with
      | None => Some (st, visited)
      | Some href =>
          if is_new_internal_page base_domain visited href then
            match recurse st href ({[href]} ∪ visited) with
            | Some (st, visited) => for_links recurse url base_domain links st visited
            | None => None
            end
          else for_links recurse url base_domain links st visited
      end
  end.

(** Lines 40-80, with the depth of the recursion bounded by [fuel]:
    [None] means the bound was hit. *)
Fixpoint get_internal_links_fuel (fuel : nat) (st : Sim) (url base_domain : string)
    (visited : gset string) (max_pages : Z) : option (Sim * gset string) :=
  match fuel with
  | O => None
  | S fuel =>
      if (Z.of_nat (size visited) >=? max_pages)%Z then Some (st, visited)
      else
        let '(st, response) := fetch_page st url in
        match response with
        | RequestException => Some (st, visited)
        | HTTPResponse status_code content_type hrefs =>
            if raises_for_status status_code then Some (st, visited)
            else if negb (is_html content_type) then Some (st, visited)
            else
              let st := sleep st CRAWL_DELAY in
              for_links
                (fun st href visited =>
                   get_internal_links_fuel fuel st href base_domain visited max_pages)
                url base_domain hrefs st visited
        end
  end.

(** One observable move of the crawl: a page is requested, the program
    sleeps, or a link that passes the test of lines 66-72 joins the set. *)
Inductive crawl_step (base_domain : string)
    : Sim * gset string -> Sim * gset string -> Prop :=
| step_fetch st visited url :
    crawl_step base_domain (st, visited) (fst (fetch_page st url), visited)
| step_sleep st visited :
    crawl_step base_domain (st, visited) (sleep st CRAWL_DELAY, visited)
| step_add st visited href :
    is_new_internal_page base_domain visited href = true ->
    crawl_step base_domain (st, visited) (st, {[href]} ∪ visited).

(** The recursion never goes deeper than this (theorem
    [get_internal_links_terminates]). *)
Definition crawl_depth (max_pages : Z) (visited : gset string) : nat :=
  S (Z.to_nat (max_pages - Z.of_nat (size visited))).

(** [get_internal_links(url, base_domain, visited, max_pages)] *)
Definition get_internal_links (st : Sim) (url base_domain : string)
    (visited : gset string) (max_pages : Z) : Sim * gset string :=
  default (st, visited)
    (get_internal_links_fuel (crawl_depth max_pages visited)
                             st url base_domain visited max_pages).

(** The arguments [url] and [visited] of a call of [get_internal_links],
    and the state it is made in; [base_domain] and [max_pages] are the
    same in every call of a traversal. *)
Definition Call : Type := Sim * string * gset string.

Definition call_url (call : Call) : string := call.1.2.

(** The same loop and the same traversal, together with the recursive
    calls of line 76 in the order they are made. Each is made for the
    URL that line 74 has just added and line 75 has just printed as
    found, with the set that holds it. *)
Fixpoint for_links_calls
    (recurse : Sim -> string -> gset string -> option (Sim * gset string * list Call))
    (url base_domain : string) (links : list string)
    (st : Sim) (visited : gset string) : option (Sim * gset string * list Call) :=
  match links with
  | [] => Some (st, visited, [])
  | link :: links =>
      match urljoin url link with
      | None => Some (st, visited, [])
      | Some href =>
          if is_new_internal_page base_domain visited href then
            match recurse st href ({[href]} ∪ visited) with
            | Some (st1, visited1, deeper) =>
                match for_links_calls recurse url base_domain links st1 visited1 with
                | Some (st2, visited2, later) =>
                    Some (st2, visited2,
                          ((st, href, {[href]} ∪ visited) :: deeper ++ later)%list)
                | None => None
                end
            | None => None
            end
          else for_links_calls recurse url base_domain links st visited
      end
  end.

Fixpoint get_internal_links_calls_fuel (fuel : nat) (st : Sim) (url base_domain : string)
    (visited : gset string) (max_pages : Z) : option (Sim * gset string * list Call) :=
  match fuel with
  | O => None
  | S fuel =>
      if (Z.of_nat (size visited) >=? max_pages)%Z then Some (st, visited, [])
      else
        let '(st, response) := fetch_page st url in
        match response with
        | RequestException => Some (st, visited, [])
        | HTTPResponse status_code content_type hrefs =>
            if raises_for_status status_code then Some (st, visited, [])
            else if negb (is_html content_type) then Some (st, visited, [])
            else
              let st := sleep st CRAWL_DELAY in
              for_links_calls
                (fun st href visited =>
                   get_internal_links_calls_fuel fuel st href base_domain visited
                                                 max_pages)
                url base_domain hrefs st visited
        end
  end.

(** The recursive calls a call of [get_internal_links] leads to, at
    every depth. *)
Definition recursive_calls (st : Sim) (url base_domain : string)
    (visited : gset string) (max_pages : Z) : list Call :=
  match get_internal_links_calls_fuel (crawl_depth max_pages visited)
                                      st url base_domain visited max_pages with
  | Some (_, _, calls) => calls
  | None => []
  end.

(** Lines 116-122: the tree built from the links. *)
Definition url_element (link : string) : Element :=
  SubElement (mkElement "url" [] None []) (mkElement "loc" [] (Some link) []).

Definition build_urlset (links : gset string) : Element :=
  fold_left (fun urlset link => SubElement urlset (url_element link))
            (elements links)
            (mkElement "urlset" [("xmlns", "http://www.sitemaps.org/schemas/sitemap/0.9")]
                       None []).

(** Lines 82-134. [request.url] has passed the validation of [HttpUrl],
    and [urlparse] returns on it. The two [HTTPException]s are the ones
    raised at lines 90 and 98. [os.makedirs] (line 104) and [tree.write]
    (line 127) are outside any [try]: when one of them raises, the
    function ends there and the framework answers with status 500. The
    file name of line 105 is made of [urlparse(url).netloc]; the traversal
    of lines 108-113 starts from the set holding the seed alone. *)
Definition generate_sitemap (st : Sim) (request : SitemapRequest) : Sim * Outcome :=
  let url := req_url request in
  let parsed_url := urlparse url in
  let domain := netloc parsed_url in
  if (req_max_pages request >? MAX_PAGES_LIMIT)%Z then
    (st, HTTPException 400 "max_pages cannot exceed 500")
  else
    let '(st, (can_fetch, crawl_delay)) := check_robots_txt st url in
    if negb can_fetch then
      (st, HTTPException 403 "This website does not allow crawling according to robots.txt")
    else
      let '(st, created) := makedirs st "sitemaps" in
      if negb created then (st, InternalServerError)
      else
        let output_file :=
          "sitemaps/sitemap_" ++ Str.replace_char "." "_" domain ++ ".xml" in
        let '(st, links) :=
          get_internal_links st url domain {[url]} (req_max_pages request) in
        let urlset := build_urlset links in
        let '(st, written) := write_tree st output_file urlset in
        if negb written then (st, InternalServerError)
        else (st, Success output_file urlset links (Z.of_nat (size links)) crawl_delay).

(** The name of line 105. *)
Definition output_file_of (url : string) : string :=
  "sitemaps/sitemap_" ++ Str.replace_char "." "_" (netloc (urlparse url)) ++ ".xml".

(** The state in which [generate_sitemap] starts the traversal of lines
    108-113, and that traversal. *)
Definition crawl_start (st : Sim) (request : SitemapRequest) : Sim :=
  (makedirs (check_robots_txt st (req_url request)).1 "sitemaps").1.

Definition crawl_of (st : Sim) (request : SitemapRequest) : Sim * gset string :=
  let url := req_url request in
  get_internal_links (crawl_start st request) url (netloc (urlparse url)) {[url]}
                     (req_max_pages request).

(** [href] is what [urljoin] makes of an anchor of [page], in some state
    of the world where [page] answers with HTML and a good status: the
    condition under which the loop of lines 61-76 gets to see [href]. *)
Definition linked_from (page href : string) : Prop :=
  exists w link,
    match requests_get w page with
    | (_, _, HTTPResponse status_code content_type hrefs) =>
        raises_for_status status_code = false
        /\ is_html content_type = true
        /\ In link hrefs
        /\ urljoin page link = Some href
    | (_, _, RequestException) => False
    end.

(** On a site that answers every request for a page the same way,
    [site], the set [links] holds all that [page] links to: when [page]
    answers with HTML and a good status, every anchor of it that
    [urljoin] resolves to a URL passing the tests of host, scheme and
    extension of lines 66-72 resolves to a member of [links]. *)
Definition closed_page (site : string -> Response) (base_domain : string)
    (links : gset string) (page : string) : Prop :=
  match site page with
  | HTTPResponse status_code content_type hrefs =>
      raises_for_status status_code = false ->
      is_html content_type = true ->
      forall link href,
        In link hrefs ->
        urljoin page link = Some href ->
        netloc (urlparse href) = base_domain ->
        scheme (urlparse href) = "http" \/ scheme (urlparse href) = "https" ->
        has_skipped_extension href = false ->
        href ∈ links
  | RequestException => True
  end.

End Crawler.
End Main.

Import Main.

(** ** A small web to run the program on

    [urlparse] and [urljoin] restricted to the URLs of the scenarios
    below: no [;] parameters, no leading blanks or control characters,
    references that are absolute or start with [/]. *)
Module Scenario.

(** [s.split(c, 1)] when [c] occurs in [s]. *)
Fixpoint split_once (c : ascii) (s : string) : option (string * string) :=
  match s with
  | EmptyString => None
  | String a s' =>
      if Ascii.eqb a c then Some (EmptyString, s')
      else match split_once c s' with
           | Some (l, r) => Some (String a l, r)
           | None => None
           end
  end.

(** The longest prefix free of the characters of [stops], and the rest. *)
Fixpoint span_until (stops : list ascii) (s : string) : string * string :=
  match s with
  | EmptyString => (EmptyString, EmptyString)
  | String a s' =>
      if existsb (Ascii.eqb a) stops then (EmptyString, s)
      else let '(l, r) := span_until stops s' in (String a l, r)
  end.

Definition is_scheme_char (c : ascii) : bool :=
  let n := nat_of_ascii c in
  (((97 <=? n) && (n <=? 122)) || ((65 <=? n) && (n <=? 90))
   || ((48 <=? n) && (n <=? 57)) || (n =? 43) || (n =? 45) || (n =? 46))%nat.

Fixpoint forall_chars (p : ascii -> bool) (s : string) : bool :=
  match s with
  | EmptyString => true
  | String a s' => p a && forall_chars p s'
  end.

Definition split_or (c : ascii) (s : string) : string * string :=
  default (s, EmptyString) (split_once c s).

Definition urlparse (url : string) : ParseResult :=
  let '(sch, rest) :=
    match split_once ":" url with
    | Some (a, b) =>
        if negb (String.eqb a "") && forall_chars is_scheme_char a
        then (Str.lower a, b) else ("", url)
    | None => ("", url)
    end in
  let '(net, rest) :=
    if String.prefix "//" rest
    then span_until ["/"; "?"; "#"]%char (String.substring 2 (String.length rest) rest)
    else ("", rest) in
  let '(rest, frag) := split_or "#" rest in
  let '(pth, qry) := split_or "?" rest in
  mkParse sch net pth "" qry frag.

Definition has_char (c : ascii) (s : string) : bool :=
  negb (forall_chars (fun a => negb (Ascii.eqb a c)) s).

(** [urljoin(base, ref)]: an absolute reference stands for itself, a
    reference starting with [/] takes scheme and host of the base.  A
    reference whose host has an unmatched bracket raises [ValueError]. *)
Definition urljoin (base ref : string) : option string :=
  let r := urlparse ref in
  if xorb (has_char "[" (netloc r)) (has_char "]" (netloc r)) then None
  else if negb (String.eqb (scheme r) "") then Some ref
  else
    let b := urlparse base in
    Some (scheme b ++ "://" ++ netloc b ++ ref).

(** A site is a table of pages; a URL that is not in it does not answer. *)
Definition Site := list (string * Response).

Fixpoint lookup_page (site : Site) (url : string) : Response :=
  match site with
  | [] => RequestException
  | (u, r) :: site => if String.eqb u url then r else lookup_page site url
  end.

(** The world never changes; every page takes 40 ms, robots.txt 30 ms. *)
Definition requests_get (site : Site) (w : unit) (url : string) : unit * Z * Response :=
  (w, 40, lookup_page site url).

Definition urlopen (robots : RobotsRead) (w : unit) (robots_url : string)
    : unit * Z * RobotsRead :=
  (w, 30, robots).

(** The directory can always be made. A file is written unless its name,
    the part of the path after [sitemaps/], is longer than 255 bytes. *)
Definition os_makedirs (w : unit) (path : string) : unit * bool := (w, true).

Definition tree_write (w : unit) (path : string) (root : Element) : unit * bool :=
  (w, (String.length path <=? 9 + 255)%nat).

Definition start : @Sim unit := mkSim tt [].

Definition html (hrefs : list string) : Response :=
  HTTPResponse 200 (Some "text/html; charset=utf-8") hrefs.

Definition no_robots : RobotsRead := HTTPError 404.
Definition allow_all_robots (delay : option Z) : RobotsRead := Parsed (fun _ => true) delay.
Definition disallow_all_robots : RobotsRead := Parsed (fun _ => false) None.

Definition run (site : Site) (robots : RobotsRead) (request : SitemapRequest)
    : @Sim unit * Outcome :=
  generate_sitemap urlparse urljoin (requests_get site) (urlopen robots)
                   os_makedirs tree_write start request.

Definition seed : string := "https://example.test/".

(** The seed links to two pages of its own host. *)
Definition two_links : Site :=
  [("https://example.test/", html ["/a"; "/b"]);
   ("https://example.test/a", html ["/"]);
   ("https://example.test/b", html ["/"; "/a"])].

(** A seed with a link to another host, two links to a PDF, and three
    links whose pages cannot be read: one does not answer, one answers
    500, one is a feed. *)
Definition example_site : Site :=
  [("https://example.test/",
    html ["/b"; "https://other.test/c"; "/doc.pdf"; "/doc.pdf?view=1";
          "/gone"; "/err"; "/feed"]);
   ("https://example.test/b", html ["/"; "/b"]);
   ("https://example.test/err", HTTPResponse 500 (Some "text/html") []);
   ("https://example.test/feed", HTTPResponse 200 (Some "application/rss+xml") []);
   ("https://other.test/c", html ["https://example.test/hidden"])].

(** The seed links to [/a], which links to [/deep], which does not
    answer. *)
Definition deep_site : Site :=
  [("https://example.test/", html ["/a"]);
   ("https://example.test/a", html ["/"; "/deep"])].

(** A host of 248 characters, in four labels of 60 and [test]: the file
    name made of it, [sitemap_<host>.xml], has 260. *)
Definition long_label : string := string_of_list_ascii (repeat "a"%char 60).

Definition long_host : string :=
  long_label ++ "." ++ long_label ++ "." ++ long_label ++ "." ++ long_label ++ ".test".

Definition long_seed : string := "https://" ++ long_host ++ "/".

(** A host on which nothing answers. *)
Definition dead_site : Site := [].

(** A seed whose third anchor makes [urljoin] raise. *)
Definition broken_link_site : Site :=
  [("https://example.test/", html ["/a"; "mailto:x@example.test"; "http://[::1"; "/b"]);
   ("https://example.test/a", html [])].

End Scenario.

(** * Properties *)

(** ** Strings *)

Lemma endswith_suffix s ext :
  Str.endswith s ext = true <-> exists p, s = p ++ ext.
Proof.
  induction s as [|c s IH]; cbn [Str.endswith].
  - destruct (String.eqb_spec "" ext) as [<-|Hne].
    + split; [exists ""; reflexivity | reflexivity].
    + split; [intros [=]|]. intros [[|c p] Hp]; [|inversion Hp].
      change ("" = ext) in Hp. contradiction.
  - destruct (String.eqb_spec (String c s) ext) as [<-|Hne].
    + split; [exists ""; reflexivity | reflexivity].
    + rewrite IH. split.
      * intros [p ->]. exists (String c p). reflexivity.
      * intros [[|c' p] Hp].
        -- change (String c s = ext) in Hp. contradiction.
        -- change (String c s = String c' (p ++ ext)) in Hp.
           injection Hp as _ ->. eauto.
Qed.

(** ** The crawl as a sequence of moves *)

Section CrawlerFacts.

Context {World : Type}.
Variable urlparse : string -> ParseResult.
Variable urljoin : string -> string -> option string.
Variable requests_get : World -> string -> World * Z * Response.
Variable urlopen : World -> string -> World * Z * RobotsRead.
Variable os_makedirs : World -> string -> World * bool.
Variable tree_write : World -> string -> Element -> World * bool.

Local Abbreviation Sim := (@Sim World).
Local Abbreviation Call := (@Call World).
Local Abbreviation is_new_internal_page := (is_new_internal_page urlparse).
Local Abbreviation for_links := (for_links urlparse urljoin).
Local Abbreviation fetch_page := (fetch_page requests_get).
Local Abbreviation get_internal_links_fuel :=
  (get_internal_links_fuel urlparse urljoin requests_get).
Local Abbreviation get_internal_links := (get_internal_links urlparse urljoin requests_get).
Local Abbreviation for_links_calls := (for_links_calls urlparse urljoin).
Local Abbreviation get_internal_links_calls_fuel :=
  (get_internal_links_calls_fuel urlparse urljoin requests_get).
Local Abbreviation recursive_calls := (recursive_calls urlparse urljoin requests_get).
Local Abbreviation check_robots_txt := (check_robots_txt urlparse urlopen).
Local Abbreviation makedirs := (makedirs os_makedirs).
Local Abbreviation write_tree := (write_tree tree_write).
Local Abbreviation output_file_of := (output_file_of urlparse).
Local Abbreviation crawl_start := (crawl_start urlparse urlopen os_makedirs).
Local Abbreviation crawl_of :=
  (crawl_of urlparse urljoin requests_get urlopen os_makedirs).
Local Abbreviation generate_sitemap :=
  (generate_sitemap urlparse urljoin requests_get urlopen os_makedirs tree_write).
Local Abbreviation crawl_step := (crawl_step urlparse requests_get).

Implicit Types (st : Sim) (visited : gset string) (url href base_domain : string).

Lemma is_new_internal_page_inv base_domain visited href :
  is_new_internal_page base_domain visited href = true ->
  netloc (urlparse href) = base_domain
  /\ (scheme (urlparse href) = "http" \/ scheme (urlparse href) = "https")
  /\ (href ∉ visited)
  /\ has_skipped_extension href = false.
Proof.
  unfold Main.is_new_internal_page. cbn [existsb].
  rewrite !andb_true_iff, !negb_true_iff, !orb_true_iff, bool_decide_eq_false.
  rewrite !String.eqb_eq. intuition congruence.
Qed.

Lemma is_new_internal_page_known base_domain visited href :
  is_new_internal_page base_domain visited href = false ->
  netloc (urlparse href) = base_domain ->
  scheme (urlparse href) = "http" \/ scheme (urlparse href) = "https" ->
  has_skipped_extension href = false ->
  href ∈ visited.
Proof.
  unfold Main.is_new_internal_page. cbn [existsb]. intros Hnew <- Hscheme Hext.
  rewrite String.eqb_refl, Hext in Hnew.
  assert (String.eqb (scheme (urlparse href)) "http"
          || (String.eqb (scheme (urlparse href)) "https" || false) = true) as Hs.
  { destruct Hscheme as [E | E]; rewrite E; reflexivity. }
  rewrite Hs in Hnew. cbn in Hnew.
  rewrite andb_true_r in Hnew. by apply negb_false_iff, bool_decide_eq_true in Hnew.
Qed.

Lemma for_links_steps recurse url base_domain links :
  (forall st u visited c,
      recurse st u visited = Some c -> rtc (crawl_step base_domain) (st, visited) c) ->
  forall st visited c,
    for_links recurse url base_domain links st visited = Some c ->
    rtc (crawl_step base_domain) (st, visited) c.
Proof.
  intros Hrec. induction links as [|link links IH]; intros st visited c; simpl.
  - intros [= <-]. apply rtc_refl.
  - destruct (urljoin url link) as [href|]; [|intros [= <-]; apply rtc_refl].
    destruct (is_new_internal_page base_domain visited href) eqn:Hnew; [|apply IH].
    destruct (recurse st href ({[href]} ∪ visited)) as [[st1 visited1]|] eqn:Hcall;
      [|discriminate].
    intros Hrest. eapply rtc_l; [apply step_add, Hnew|].
    etrans; [apply (Hrec _ _ _ _ Hcall) | apply IH, Hrest].
Qed.

Lemma get_internal_links_fuel_steps fuel base_domain max_pages :
  forall st url visited c,
    get_internal_links_fuel fuel st url base_domain visited max_pages = Some c ->
    rtc (crawl_step base_domain) (st, visited) c.
Proof.
  induction fuel as [|fuel IH]; intros st url visited c; simpl; [discriminate|].
  destruct (Z.of_nat (size visited) >=? max_pages)%Z; [intros [= <-]; apply rtc_refl|].
  pose proof (step_fetch urlparse requests_get base_domain st visited url) as Hget.
  destruct (fetch_page st url) as [st1 response]. simpl in Hget.
  destruct response as [|status_code content_type hrefs].
  { intros [= <-]. by apply rtc_once. }
  destruct (raises_for_status status_code); [intros [= <-]; by apply rtc_once|].
  destruct (is_html content_type); simpl; [|intros [= <-]; by apply rtc_once].
  intros Hloop. eapply rtc_l; [exact Hget|].
  eapply rtc_l; [apply step_sleep|].
  eapply for_links_steps; [|exact Hloop]. intros st2 u visited2 c2. apply IH.
Qed.

(** *** The set only grows, and only by links that passed the test *)

Lemma crawl_steps_grow base_domain c c' :
  rtc (crawl_step base_domain) c c' -> c.2 ⊆ c'.2.
Proof.
  induction 1 as [|c1 c2 c3 Hstep _ IH]; [done|].
  etrans; [|exact IH]. destruct Hstep; simpl; set_solver.
Qed.

Lemma crawl_steps_added base_domain c c' :
  rtc (crawl_step base_domain) c c' ->
  forall href, href ∈ c'.2 -> href ∉ c.2 ->
    netloc (urlparse href) = base_domain
    /\ (scheme (urlparse href) = "http" \/ scheme (urlparse href) = "https")
    /\ has_skipped_extension href = false.
Proof.
  induction 1 as [|c1 c2 c3 Hstep _ IH]; intros href Hin Hout; [done|].
  destruct Hstep as [st visited url|st visited|st visited new Hnew]; simpl in *;
    try (by apply IH).
  destruct (decide (href = new)) as [->|Hne].
  - apply is_new_internal_page_inv in Hnew. tauto.
  - apply IH; [done|]. rewrite not_elem_of_union, not_elem_of_singleton. done.
Qed.

(** The log only grows at its end. *)
Lemma crawl_steps_log base_domain c c' :
  rtc (crawl_step base_domain) c c' -> exists events, log c'.1 = (log c.1 ++ events)%list.
Proof.
  induction 1 as [c|c1 c2 c3 Hstep _ [events IH]].
  - exists []. by rewrite app_nil_r.
  - rewrite IH. destruct Hstep as [st visited url|st visited|st visited new Hnew]; simpl.
    + unfold Main.fetch_page.
      destruct (requests_get (world st) url) as [[w elapsed] response]; simpl.
      rewrite <- app_assoc. eauto.
    + rewrite <- app_assoc. eauto.
    + eauto.
Qed.

(** *** Enough fuel: the recursion is at most [crawl_depth] deep *)

Lemma for_links_total recurse url base_domain links (n : nat) :
  (forall st u visited, (n < size visited)%nat ->
      exists c, recurse st u visited = Some c /\ visited ⊆ c.2) ->
  forall st visited, (n <= size visited)%nat ->
    exists c, for_links recurse url base_domain links st visited = Some c
              /\ visited ⊆ c.2.
Proof.
  intros Hrec. induction links as [|link links IH]; intros st visited Hsize; simpl.
  - eauto.
  - destruct (urljoin url link) as [href|]; [|eauto].
    destruct (is_new_internal_page base_domain visited href) eqn:Hnew; [|by apply IH].
    apply is_new_internal_page_inv in Hnew as (_ & _ & Hfresh & _).
    assert (size ({[href]} ∪ visited) = S (size visited)) as Hgrow.
    { rewrite size_union by set_solver. by rewrite size_singleton. }
    destruct (Hrec st href ({[href]} ∪ visited)) as ([st1 visited1] & -> & Hsub); [lia|].
    simpl in Hsub.
    destruct (IH st1 visited1) as (c & -> & Hsub').
    { apply subseteq_size in Hsub. lia. }
    exists c. split; [done|]. set_solver.
Qed.

Lemma get_internal_links_fuel_total fuel base_domain max_pages :
  forall st url visited,
    (crawl_depth max_pages visited <= fuel)%nat ->
    exists c, get_internal_links_fuel fuel st url base_domain visited max_pages = Some c
              /\ visited ⊆ c.2.
Proof.
  unfold crawl_depth.
  induction fuel as [|fuel IH]; intros st url visited Hfuel; [lia|]. simpl.
  destruct (Z.geb_spec (Z.of_nat (size visited)) max_pages) as [Hfull|Hroom]; [eauto|].
  destruct (fetch_page st url) as [st1 [|status_code content_type hrefs]]; [eauto|].
  destruct (raises_for_status status_code); [eauto|].
  destruct (is_html content_type); simpl; [|eauto].
  apply (for_links_total _ _ _ _ (size visited)); [|lia].
  intros st2 u visited2 Hlarger. apply IH. lia.
Qed.

(** *** Pages are requested only below the limit

    A call requests at most [max_pages - |visited|] pages: the set may
    grow past the limit, the requests stop at it. *)

Lemma page_fetches_fetch_page st url :
  length (page_fetches (log (fetch_page st url).1))
  = S (length (page_fetches (log st))).
Proof.
  unfold Main.fetch_page.
  destruct (requests_get (world st) url) as [[w elapsed] response]. simpl.
  unfold page_fetches. rewrite filter_app, length_app.
  rewrite filter_cons_True, filter_nil by done. simpl. lia.
Qed.

Lemma page_fetches_sleep st seconds :
  page_fetches (log (sleep st seconds)) = page_fetches (log st).
Proof.
  simpl. unfold page_fetches. rewrite filter_app. simpl.
  rewrite filter_cons_False, filter_nil, app_nil_r; done.
Qed.

Lemma for_links_fetches recurse url base_domain links max_pages :
  (forall st u visited c,
      recurse st u visited = Some c ->
      (length (page_fetches (log c.1)) + Z.to_nat (max_pages - Z.of_nat (size c.2) - 1)
       <= length (page_fetches (log st)) + Z.to_nat (max_pages - Z.of_nat (size visited)))%nat) ->
  forall st visited c,
    for_links recurse url base_domain links st visited = Some c ->
    (length (page_fetches (log c.1)) + Z.to_nat (max_pages - Z.of_nat (size c.2) - 1)
     <= length (page_fetches (log st)) + Z.to_nat (max_pages - Z.of_nat (size visited) - 1))%nat.
Proof.
  intros Hrec. induction links as [|link links IH]; intros st visited c; simpl.
  - intros [= <-]. done.
  - destruct (urljoin url link) as [href|]; [|intros [= <-]; done].
    destruct (is_new_internal_page base_domain visited href) eqn:Hnew; [|apply IH].
    apply is_new_internal_page_inv in Hnew as (_ & _ & Hfresh & _).
    assert (size ({[href]} ∪ visited) = S (size visited)) as Hone.
    { rewrite size_union by set_solver. by rewrite size_singleton. }
    destruct (recurse st href ({[href]} ∪ visited)) as [[st1 visited1]|] eqn:Hcall;
      [|done].
    intros Hrest. apply Hrec in Hcall. apply IH in Hrest. simpl in Hcall.
    rewrite Hone in Hcall. lia.
Qed.

Lemma get_internal_links_fuel_fetches fuel base_domain max_pages :
  forall st url visited c,
    get_internal_links_fuel fuel st url base_domain visited max_pages = Some c ->
    (length (page_fetches (log c.1)) + Z.to_nat (max_pages - Z.of_nat (size c.2) - 1)
     <= length (page_fetches (log st)) + Z.to_nat (max_pages - Z.of_nat (size visited)))%nat.
Proof.
  induction fuel as [|fuel IH]; intros st url visited c; simpl; [done|].
  destruct (Z.geb_spec (Z.of_nat (size visited)) max_pages) as [Hfull|Hroom].
  { intros [= <-]. simpl. lia. }
  pose proof (page_fetches_fetch_page st url) as Hone.
  destruct (fetch_page st url) as [st1 [|status_code content_type hrefs]]; simpl in Hone.
  { intros [= <-]. simpl. lia. }
  destruct (raises_for_status status_code); [intros [= <-]; simpl; lia|].
  destruct (is_html content_type); simpl; [|intros [= <-]; simpl; lia].
  intros Hloop. eapply (for_links_fetches _ _ _ _ max_pages) in Hloop.
  - rewrite page_fetches_sleep in Hloop. lia.
  - intros st2 u visited2 c2. apply IH.
Qed.

(** *** More fuel changes nothing *)

Lemma for_links_mono recurse recurse' url base_domain links :
  (forall st u visited c, recurse st u visited = Some c -> recurse' st u visited = Some c) ->
  forall st visited c,
    for_links recurse url base_domain links st visited = Some c ->
    for_links recurse' url base_domain links st visited = Some c.
Proof.
  intros Hrec. induction links as [|link links IH]; intros st visited c; simpl; [done|].
  destruct (urljoin url link) as [href|]; [|done].
  destruct (is_new_internal_page base_domain visited href); [|apply IH].
  destruct (recurse st href ({[href]} ∪ visited)) as [[st1 visited1]|] eqn:Hcall; [|done].
  rewrite (Hrec _ _ _ _ Hcall). apply IH.
Qed.

Lemma get_internal_links_fuel_mono fuel fuel' base_domain max_pages :
  (fuel <= fuel')%nat ->
  forall st url visited c,
    get_internal_links_fuel fuel st url base_domain visited max_pages = Some c ->
    get_internal_links_fuel fuel' st url base_domain visited max_pages = Some c.
Proof.
  revert fuel'. induction fuel as [|fuel IH]; intros fuel' Hle st url visited c; [done|].
  destruct fuel' as [|fuel']; [lia|]. simpl.
  destruct (Z.of_nat (size visited) >=? max_pages)%Z; [done|].
  destruct (fetch_page st url) as [st1 [|status_code content_type hrefs]]; [done|].
  destruct (raises_for_status status_code); [done|].
  destruct (is_html content_type); simpl; [|done].
  apply for_links_mono. intros st2 u visited2 c2. apply IH. lia.
Qed.

(** [get_internal_links] is the value the bounded recursion reaches. *)
Lemma get_internal_links_fuel_enough fuel st url base_domain visited max_pages :
  (crawl_depth max_pages visited <= fuel)%nat ->
  get_internal_links_fuel fuel st url base_domain visited max_pages
  = Some (get_internal_links st url base_domain visited max_pages).
Proof.
  intros Hfuel. unfold Main.get_internal_links.
  destruct (get_internal_links_fuel_total (crawl_depth max_pages visited)
              base_domain max_pages st url visited) as (c & Hc & _); [done|].
  rewrite Hc. simpl. eapply get_internal_links_fuel_mono; eassumption.
Qed.

Lemma get_internal_links_steps st url base_domain visited max_pages :
  rtc (crawl_step base_domain) (st, visited)
      (get_internal_links st url base_domain visited max_pages).
Proof.
  eapply get_internal_links_fuel_steps.
  apply get_internal_links_fuel_enough. reflexivity.
Qed.

(** *** The program's own recursion equation *)

Lemma for_links_agree recurse recurse' url base_domain links (n : nat) :
  (forall st u visited, (n < size visited)%nat ->
      recurse st u visited = recurse' st u visited) ->
  (forall st u visited c, recurse st u visited = Some c -> visited ⊆ c.2) ->
  forall st visited, (n <= size visited)%nat ->
    for_links recurse url base_domain links st visited
    = for_links recurse' url base_domain links st visited.
Proof.
  intros Hsame Hgrow. induction links as [|link links IH]; intros st visited Hsize; simpl.
  - done.
  - destruct (urljoin url link) as [href|]; [|done].
    destruct (is_new_internal_page base_domain visited href) eqn:Hnew; [|by apply IH].
    apply is_new_internal_page_inv in Hnew as (_ & _ & Hfresh & _).
    assert (size ({[href]} ∪ visited) = S (size visited)) as Hone.
    { rewrite size_union by set_solver. by rewrite size_singleton. }
    rewrite <- Hsame by lia.
    destruct (recurse st href ({[href]} ∪ visited)) as [[st1 visited1]|] eqn:Hcall; [|done].
    apply IH. apply Hgrow, subseteq_size in Hcall. simpl in Hcall. lia.
Qed.

(** [get_internal_links] satisfies the equation that lines 40-80 write
    down, with itself at the recursive call. *)
Lemma get_internal_links_unfold st url base_domain visited max_pages :
  get_internal_links st url base_domain visited max_pages =
  if (Z.of_nat (size visited) >=? max_pages)%Z then (st, visited)
  else
    let '(st1, response) := fetch_page st url in
    match response with
    | RequestException => (st1, visited)
    | HTTPResponse status_code content_type hrefs =>
        if raises_for_status status_code then (st1, visited)
        else if negb (is_html content_type) then (st1, visited)
        else
          default (st1, visited)
            (for_links
               (fun st u visited =>
                  Some (get_internal_links st u base_domain visited max_pages))
               url base_domain hrefs (sleep st1 CRAWL_DELAY) visited)
    end.
Proof.
  pose proof (get_internal_links_fuel_enough (S (crawl_depth max_pages visited))
                st url base_domain visited max_pages) as Hrun.
  cbn [Main.get_internal_links_fuel] in Hrun.
  destruct (Z.geb_spec (Z.of_nat (size visited)) max_pages) as [Hfull|Hroom].
  { specialize (Hrun ltac:(lia)). congruence. }
  destruct (fetch_page st url) as [st1 [|status_code content_type hrefs]].
  { specialize (Hrun ltac:(lia)). congruence. }
  destruct (raises_for_status status_code); [specialize (Hrun ltac:(lia)); congruence|].
  destruct (is_html content_type); cbn [negb] in *;
    [|specialize (Hrun ltac:(lia)); congruence].
  rewrite <- (for_links_agree
                (fun st2 href visited2 =>
                   get_internal_links_fuel (crawl_depth max_pages visited)
                                           st2 href base_domain visited2 max_pages)
                _ url base_domain hrefs (size visited)).
  - rewrite Hrun by lia. done.
  - intros st2 u visited2 Hlarger. apply get_internal_links_fuel_enough.
    unfold crawl_depth. lia.
  - intros st2 u visited2 c Hcall.
    apply get_internal_links_fuel_steps, crawl_steps_grow in Hcall. done.
  - lia.
Qed.

(** *** What a successful request went through *)

Lemma build_urlset_children links :
  build_urlset links
  = mkElement "urlset" [("xmlns", "http://www.sitemaps.org/schemas/sitemap/0.9")] None
      (map (fun link => mkElement "url" [] None [mkElement "loc" [] (Some link) []])
           (elements links)).
Proof.
  assert (forall l acc,
    fold_left (fun urlset link => SubElement urlset (url_element link)) l
      (mkElement "urlset" [("xmlns", "http://www.sitemaps.org/schemas/sitemap/0.9")]
                 None acc)
    = mkElement "urlset" [("xmlns", "http://www.sitemaps.org/schemas/sitemap/0.9")] None
        (acc ++ map (fun link => mkElement "url" [] None
                                   [mkElement "loc" [] (Some link) []]) l)%list) as Hfold.
  { induction l as [|link l IH]; intros acc; simpl.
    - by rewrite app_nil_r.
    - rewrite IH, <- app_assoc. done. }
  unfold build_urlset. by rewrite Hfold.
Qed.

Lemma loc_texts_build_urlset links :
  loc_texts (build_urlset links) = elements links.
Proof.
  rewrite build_urlset_children. unfold loc_texts. cbn [children_of].
  induction (elements links) as [|link l IH]; [done|].
  cbn. by rewrite IH.
Qed.

Lemma makedirs_log st path : log (makedirs st path).1 = log st.
Proof. unfold Main.makedirs. by destruct (os_makedirs _ _). Qed.

Lemma write_tree_log st path root : log (write_tree st path root).1 = log st.
Proof. unfold Main.write_tree. by destruct (tree_write _ _ _). Qed.

Lemma check_robots_txt_log_one st url :
  exists robots_url elapsed,
    log (check_robots_txt st url).1 = (log st ++ [RobotsFetch robots_url elapsed])%list.
Proof.
  unfold Main.check_robots_txt. cbn zeta.
  destruct (urlopen _ _) as [[w elapsed] r].
  destruct (RobotFileParser.read _ _); simpl; eauto.
Qed.

Lemma crawl_start_log st request :
  log (crawl_start st request) = log (check_robots_txt st (req_url request)).1.
Proof. apply makedirs_log. Qed.

Lemma crawl_of_steps st request :
  rtc (crawl_step (netloc (urlparse (req_url request))))
      (crawl_start st request, {[req_url request]}) (crawl_of st request).
Proof. apply get_internal_links_steps. Qed.

(** The five ways [generate_sitemap] ends, in the order of lines 89-134. *)
Lemma generate_sitemap_cases st request :
  let url := req_url request in
  let checked := check_robots_txt st url in
  let prepared := makedirs checked.1 "sitemaps" in
  let crawl := crawl_of st request in
  let written := write_tree crawl.1 (output_file_of url) (build_urlset crawl.2) in
  let result := generate_sitemap st request in
  ((req_max_pages request > MAX_PAGES_LIMIT)%Z
   /\ result = (st, HTTPException 400 "max_pages cannot exceed 500"))
  \/ ((req_max_pages request <= MAX_PAGES_LIMIT)%Z
      /\ ((checked.2.1 = false
           /\ result
              = (checked.1,
                 HTTPException 403
                   "This website does not allow crawling according to robots.txt"))
          \/ (checked.2.1 = true
              /\ ((prepared.2 = false /\ result = (prepared.1, InternalServerError))
                  \/ (prepared.2 = true
                      /\ ((written.2 = false /\ result = (written.1, InternalServerError))
                          \/ (written.2 = true
                              /\ result
                                 = (written.1,
                                    Success (output_file_of url) (build_urlset crawl.2)
                                            crawl.2 (Z.of_nat (size crawl.2))
                                            checked.2.2)))))))).
Proof.
  cbn zeta. unfold Main.generate_sitemap, Main.crawl_of, Main.crawl_start,
    Main.output_file_of. cbn zeta.
  destruct (Z.gtb_spec (req_max_pages request) MAX_PAGES_LIMIT) as [Hbig|Hle].
  { left. split; [lia|done]. }
  right. split; [done|].
  destruct (check_robots_txt st (req_url request)) as [st1 [[|] crawl_delay]];
    cbn [negb fst snd]; [right; split; [done|] | left; done].
  destruct (makedirs st1 "sitemaps") as [st2 [|]]; cbn [negb fst snd];
    [right; split; [done|] | left; done].
  destruct (get_internal_links _ _ _ _ _) as [st3 links]. cbn [fst snd].
  destruct (write_tree st3 _ _) as [st4 [|]]; cbn [negb fst snd];
    [right; done | left; done].
Qed.

Lemma generate_sitemap_success st request st' file_path document links url_count delay :
  generate_sitemap st request
  = (st', Success file_path document links url_count delay) ->
  (req_max_pages request <= MAX_PAGES_LIMIT)%Z
  /\ (check_robots_txt st (req_url request)).2 = (true, delay)
  /\ links = (crawl_of st request).2
  /\ log st' = log (crawl_of st request).1
  /\ document = build_urlset links
  /\ url_count = Z.of_nat (size links)
  /\ file_path = output_file_of (req_url request).
Proof.
  intros Hrun.
  destruct (generate_sitemap_cases st request)
    as [[_ Hr] | [Hle [[_ Hr] | [Hcheck [[_ Hr] | [_ [[_ Hr] | [_ Hr]]]]]]]];
    rewrite Hrun in Hr; try discriminate.
  injection Hr as -> -> -> -> -> ->.
  rewrite write_tree_log. repeat split; try done.
  destruct (check_robots_txt st (req_url request)) as [st1 [can_fetch crawl_delay]].
  simpl in *. by subst.
Qed.

(** What is listed was reached by the traversal from the seed alone. *)
Lemma generate_sitemap_links_steps st request :
  let result := generate_sitemap st request in
  forall href, href ∈ links_of result.2 ->
    exists c, rtc (crawl_step (netloc (urlparse (req_url request))))
                  (crawl_start st request, {[req_url request]}) c
              /\ href ∈ c.2.
Proof.
  intros result href Hin. subst result.
  destruct (generate_sitemap st request)
    as [st' [status detail| |file doc links n delay]] eqn:Hrun;
    simpl in Hin; [set_solver..|].
  apply generate_sitemap_success in Hrun as (_ & _ & -> & _).
  exists (crawl_of st request). split; [apply crawl_of_steps|done].
Qed.

Lemma sitemap_locs_links st request :
  let answer := (generate_sitemap st request).2 in
  sitemap_locs answer = elements (links_of answer).
Proof.
  intros answer. subst answer.
  destruct (generate_sitemap st request)
    as [st' [status detail| |file doc links n delay]] eqn:Hrun; simpl;
    [by rewrite elements_empty..|].
  apply generate_sitemap_success in Hrun as (_ & _ & _ & _ & -> & _).
  apply loc_texts_build_urlset.
Qed.

(** *** Links found on a page stay in the set *)

Lemma for_links_discovers recurse url base_domain pre :
  (forall st u visited c, recurse st u visited = Some c -> visited ⊆ c.2) ->
  forall link post href st visited c,
    for_links recurse url base_domain (pre ++ link :: post) st visited = Some c ->
    Forall (fun l => is_Some (urljoin url l)) pre ->
    urljoin url link = Some href ->
    netloc (urlparse href) = base_domain ->
    scheme (urlparse href) = "http" \/ scheme (urlparse href) = "https" ->
    has_skipped_extension href = false ->
    visited ⊆ c.2 /\ href ∈ c.2.
Proof.
  intros Hgrow link post href.
  assert (forall links st visited c,
            for_links recurse url base_domain links st visited = Some c ->
            visited ⊆ c.2) as Hkeep.
  { induction links as [|l links IH]; intros st visited c; simpl.
    - by intros [= <-].
    - destruct (urljoin url l) as [h|]; [|by intros [= <-]].
      destruct (is_new_internal_page base_domain visited h); [|apply IH].
      destruct (recurse st h ({[h]} ∪ visited)) as [[st1 visited1]|] eqn:Hcall; [|done].
      intros Hrest. apply Hgrow in Hcall. apply IH in Hrest. set_solver. }
  induction pre as [|l pre IH]; intros st visited c Hrun Hpre Hjoin Hhost Hscheme Hext;
    simpl in Hrun.
  - rewrite Hjoin in Hrun.
    destruct (is_new_internal_page base_domain visited href) eqn:Hnew.
    + destruct (recurse st href ({[href]} ∪ visited)) as [[st1 visited1]|] eqn:Hcall;
        [|done].
      apply Hgrow in Hcall. apply Hkeep in Hrun. set_solver.
    + apply Hkeep in Hrun. split; [done|]. apply Hrun.
      by apply (is_new_internal_page_known base_domain).
  - apply Forall_cons in Hpre as [[h Hh] Hpre]. rewrite Hh in Hrun.
    destruct (is_new_internal_page base_domain visited h).
    + destruct (recurse st h ({[h]} ∪ visited)) as [[st1 visited1]|] eqn:Hcall; [|done].
      apply Hgrow in Hcall.
      destruct (IH _ _ _ Hrun Hpre Hjoin Hhost Hscheme Hext). set_solver.
    + by apply (IH _ _ _ Hrun).
Qed.

(** *** The recursive calls of a traversal *)

Lemma for_links_calls_plain recurse_c recurse url base_domain links :
  (forall st u visited, recurse st u visited = fst <$> recurse_c st u visited) ->
  forall st visited,
    for_links recurse url base_domain links st visited
    = fst <$> for_links_calls recurse_c url base_domain links st visited.
Proof.
  intros Hrec. induction links as [|link links IH]; intros st visited; simpl; [done|].
  destruct (urljoin url link) as [href|]; [|done].
  destruct (is_new_internal_page base_domain visited href); [|apply IH].
  rewrite Hrec.
  destruct (recurse_c st href ({[href]} ∪ visited)) as [[[st1 visited1] deeper]|];
    simpl; [|done].
  rewrite IH.
  by destruct (for_links_calls recurse_c url base_domain links st1 visited1)
    as [[[st2 visited2] later]|].
Qed.

Lemma get_internal_links_calls_fuel_plain fuel base_domain max_pages :
  forall st url visited,
    get_internal_links_fuel fuel st url base_domain visited max_pages
    = fst <$> get_internal_links_calls_fuel fuel st url base_domain visited max_pages.
Proof.
  induction fuel as [|fuel IH]; intros st url visited; simpl; [done|].
  destruct (Z.of_nat (size visited) >=? max_pages)%Z; [done|].
  destruct (fetch_page st url) as [st1 [|status_code content_type hrefs]]; [done|].
  destruct (raises_for_status status_code); [done|].
  destruct (is_html content_type); simpl; [|done].
  apply for_links_calls_plain. intros st2 u visited2. apply IH.
Qed.

Lemma get_internal_links_fuel_some fuel st url base_domain visited max_pages c :
  get_internal_links_fuel fuel st url base_domain visited max_pages = Some c ->
  get_internal_links st url base_domain visited max_pages = c.
Proof.
  intros Hrun.
  pose proof (get_internal_links_fuel_enough (crawl_depth max_pages visited)
                st url base_domain visited max_pages ltac:(done)) as Htotal.
  destruct (Nat.le_ge_cases fuel (crawl_depth max_pages visited)) as [Hle|Hge].
  - apply (get_internal_links_fuel_mono _ _ _ _ Hle) in Hrun. congruence.
  - apply (get_internal_links_fuel_mono _ _ _ _ Hge) in Htotal. congruence.
Qed.

Lemma for_links_calls_kept recurse_c url base_domain max_pages links :
  (forall st u visited r,
      recurse_c st u visited = Some r ->
      get_internal_links st u base_domain visited max_pages = r.1
      /\ r.1.2 = visited ∪ list_to_set (call_url <$> r.2)
      /\ forall call, call ∈ r.2 ->
           call_url call ∈ call.2
           /\ (get_internal_links call.1.1 (call_url call) base_domain call.2
                                  max_pages).2 ⊆ r.1.2) ->
  forall st visited r,
    for_links_calls recurse_c url base_domain links st visited = Some r ->
    r.1.2 = visited ∪ list_to_set (call_url <$> r.2)
    /\ forall call, call ∈ r.2 ->
         call_url call ∈ call.2
         /\ (get_internal_links call.1.1 (call_url call) base_domain call.2
                                max_pages).2 ⊆ r.1.2.
Proof.
  intros Hrec. induction links as [|link links IH]; intros st visited r; simpl.
  - intros [= <-]. simpl. split; [set_solver|]. intros call Hcall. by apply elem_of_nil in Hcall.
  - destruct (urljoin url link) as [href|].
    2:{ intros [= <-]. simpl. split; [set_solver|].
        intros call Hcall. by apply elem_of_nil in Hcall. }
    destruct (is_new_internal_page base_domain visited href); [|apply IH].
    destruct (recurse_c st href ({[href]} ∪ visited)) as [[[st1 visited1] deeper]|]
      eqn:Hcall; [|done].
    destruct (for_links_calls recurse_c url base_domain links st1 visited1)
      as [[[st2 visited2] later]|] eqn:Hrest; [|done].
    intros [= <-]. apply Hrec in Hcall as (Htotal & Hset1 & Hdeeper).
    apply IH in Hrest as (Hset2 & Hlater). cbn [fst snd] in *.
    split.
    { rewrite Hset2, Hset1, fmap_cons, fmap_app, list_to_set_cons, list_to_set_app_L.
      unfold call_url at 3. cbn [fst snd]. set_solver. }
    assert (visited1 ⊆ visited2) as Hsub by (rewrite Hset2; set_solver).
    intros call [-> | [Hin | Hin]%elem_of_app]%elem_of_cons.
    + unfold call_url. cbn [fst snd]. split; [set_solver|].
      fold (call_url (st, href, {[href]} ∪ visited)).
      unfold call_url. cbn [fst snd]. rewrite Htotal. done.
    + destruct (Hdeeper call Hin) as [Hmember Hkept]. split; [done|]. set_solver.
    + by apply Hlater.
Qed.

Lemma get_internal_links_calls_fuel_kept fuel base_domain max_pages :
  forall st url visited r,
    get_internal_links_calls_fuel fuel st url base_domain visited max_pages = Some r ->
    get_internal_links st url base_domain visited max_pages = r.1
    /\ r.1.2 = visited ∪ list_to_set (call_url <$> r.2)
    /\ forall call, call ∈ r.2 ->
         call_url call ∈ call.2
         /\ (get_internal_links call.1.1 (call_url call) base_domain call.2
                                max_pages).2 ⊆ r.1.2.
Proof.
  induction fuel as [|fuel IH]; intros st url visited r Hrun; [done|].
  split.
  { apply (get_internal_links_fuel_some (S fuel)).
    rewrite get_internal_links_calls_fuel_plain, Hrun. done. }
  revert Hrun. simpl.
  assert (forall st' : Sim,
            Some (st', visited, @nil Call) = Some r ->
            r.1.2 = visited ∪ list_to_set (call_url <$> r.2)
            /\ forall call, call ∈ r.2 ->
                 call_url call ∈ call.2
                 /\ (get_internal_links call.1.1 (call_url call) base_domain call.2
                                        max_pages).2 ⊆ r.1.2) as Hleaf.
  { intros st' [= <-]. simpl. split; [set_solver|].
    intros call Hcall. by apply elem_of_nil in Hcall. }
  destruct (Z.of_nat (size visited) >=? max_pages)%Z; [apply Hleaf|].
  destruct (fetch_page st url) as [st1 [|status_code content_type hrefs]]; [apply Hleaf|].
  destruct (raises_for_status status_code); [apply Hleaf|].
  destruct (is_html content_type); simpl; [|apply Hleaf].
  apply for_links_calls_kept. intros st2 u visited2 r2. apply IH.
Qed.

Lemma recursive_calls_run st url base_domain visited max_pages :
  get_internal_links_calls_fuel (crawl_depth max_pages visited)
                                st url base_domain visited max_pages
  = Some (get_internal_links st url base_domain visited max_pages,
          recursive_calls st url base_domain visited max_pages).
Proof.
  pose proof (get_internal_links_fuel_enough (crawl_depth max_pages visited)
                st url base_domain visited max_pages ltac:(done)) as Htotal.
  rewrite get_internal_links_calls_fuel_plain in Htotal.
  unfold Main.recursive_calls.
  destruct (get_internal_links_calls_fuel _ _ _ _ _ _) as [[[st' visited'] calls]|];
    [|done].
  simpl in Htotal. by injection Htotal as <-.
Qed.

(** An anchor of the page a call is made for stays in what the call
    returns. *)
Lemma page_anchor_kept st url base_domain visited max_pages
    status_code content_type pre link post href :
  (Z.of_nat (size visited) < max_pages)%Z ->
  (fetch_page st url).2 = HTTPResponse status_code content_type (pre ++ link :: post) ->
  raises_for_status status_code = false ->
  is_html content_type = true ->
  Forall (fun l => is_Some (urljoin url l)) pre ->
  urljoin url link = Some href ->
  netloc (urlparse href) = base_domain ->
  scheme (urlparse href) = "http" \/ scheme (urlparse href) = "https" ->
  has_skipped_extension href = false ->
  href ∈ (get_internal_links st url base_domain visited max_pages).2.
Proof.
  intros Hroom Hpage Hstatus Hhtml Hpre Hjoin Hhost Hscheme Hext.
  pose proof (get_internal_links_fuel_enough (S (crawl_depth max_pages visited))
                st url base_domain visited max_pages ltac:(lia)) as Hrun.
  cbn [Main.get_internal_links_fuel] in Hrun.
  destruct (Z.geb_spec (Z.of_nat (size visited)) max_pages) as [Hfull|_]; [lia|].
  destruct (fetch_page st url) as [st1 response]. simpl in Hpage. subst response.
  rewrite Hstatus, Hhtml in Hrun. cbn [negb] in Hrun.
  eapply for_links_discovers in Hrun as [_ Hin]; try eassumption.
  intros st2 u visited2 c Hcall.
  apply get_internal_links_fuel_steps, crawl_steps_grow in Hcall. done.
Qed.

(** ** The claims *)

(** C7. The traversal terminates on every input: whatever the site
    answers (cyclic link graphs included) and whatever the page limit,
    the recursion of [get_internal_links] is at most [crawl_depth] deep,
    so running it with that much fuel or more returns a result; the
    result is reached by finitely many moves of the crawl, of which at
    most [max_pages - |visited|] are page requests. *)
Theorem get_internal_links_terminates
    (fuel : nat) st url base_domain visited (max_pages : Z) :
  (crawl_depth max_pages visited <= fuel)%nat ->
  exists result,
    get_internal_links_fuel fuel st url base_domain visited max_pages = Some result
    /\ result = get_internal_links st url base_domain visited max_pages
    /\ rtc (crawl_step base_domain) (st, visited) result
    /\ (length (page_fetches (log result.1))
        <= length (page_fetches (log st))
           + Z.to_nat (max_pages - Z.of_nat (size visited)))%nat.
Proof.
  intros Hfuel. eexists. split; [by apply get_internal_links_fuel_enough|].
  split; [done|]. split; [apply get_internal_links_steps|].
  pose proof (get_internal_links_fuel_fetches fuel base_domain max_pages st url visited _
                (get_internal_links_fuel_enough fuel st url base_domain visited max_pages
                   Hfuel)).
  lia.
Qed.

(** C2. Every URL of the result set of a crawl, and every [loc] of the
    sitemap written from it, has the [netloc] of the seed URL. *)
Theorem result_urls_same_host st request href :
  let result := generate_sitemap st request in
  href ∈ links_of result.2 \/ In href (sitemap_locs result.2) ->
  netloc (urlparse href) = netloc (urlparse (req_url request)).
Proof.
  intros result Hin. subst result.
  rewrite sitemap_locs_links, <- list_elem_of_In, elem_of_elements in Hin.
  assert (href ∈ links_of (generate_sitemap st request).2) as Hlink by tauto. clear Hin.
  apply generate_sitemap_links_steps in Hlink as (c & Hsteps & Hin).
  destruct (decide (href = req_url request)) as [->|Hseed]; [done|].
  eapply crawl_steps_added in Hsteps as (Hhost & _); [exact Hhost|exact Hin|].
  simpl. by apply not_elem_of_singleton.
Qed.

(** C4, as the program has it. A URL of the result set other than the
    seed does not end, as a string, in any of the skipped extensions. *)
Theorem skipped_extension_only_seed st request href ext :
  let result := generate_sitemap st request in
  href ∈ links_of result.2 ->
  href <> req_url request ->
  In ext skipped_extensions ->
  Str.endswith href ext = false.
Proof.
  intros result Hin Hseed Hext. subst result.
  apply generate_sitemap_links_steps in Hin as (c & Hsteps & Hin).
  eapply crawl_steps_added in Hsteps as (_ & _ & Hskip); [|exact Hin|].
  - unfold has_skipped_extension in Hskip.
    destruct (Str.endswith href ext) eqn:Hends; [|done].
    assert (existsb (Str.endswith href) skipped_extensions = true) as Hex; [|congruence].
    apply existsb_exists. eauto.
  - simpl. by apply not_elem_of_singleton.
Qed.

(** C10. A URL that is in the visited set is never removed: what a
    traversal returns is the set it was given together with every URL it
    found, at whatever depth, each of which is the URL of one recursive
    call. For the first call and for every recursive call alike, an
    anchor of the page the call is made for that passes the test of lines
    66-72 is in the set the whole traversal returns, whatever the
    request for that anchor comes to afterwards (the world and what it
    answers are arbitrary: an exception, a 4xx or 5xx status, a body that
    is not HTML). The links of a successful job are the set that
    [get_internal_links] returned for the seed, started after the robots
    check and [os.makedirs] from the set holding the seed alone, and its
    sitemap lists exactly them. *)
Theorem discovered_links_are_kept st url base_domain visited max_pages :
  let result := get_internal_links st url base_domain visited max_pages in
  let calls := recursive_calls st url base_domain visited max_pages in
  get_internal_links_calls_fuel (crawl_depth max_pages visited)
                                st url base_domain visited max_pages
  = Some (result, calls)
  /\ visited ⊆ result.2
  /\ result.2 = visited ∪ list_to_set (call_url <$> calls)
  /\ (forall call : Call, In call ((st, url, visited) :: calls) ->
      forall status_code content_type pre link post href,
        (Z.of_nat (size call.2) < max_pages)%Z ->
        (fetch_page call.1.1 (call_url call)).2
        = HTTPResponse status_code content_type (pre ++ link :: post) ->
        raises_for_status status_code = false ->
        is_html content_type = true ->
        Forall (fun l => is_Some (urljoin (call_url call) l)) pre ->
        urljoin (call_url call) link = Some href ->
        netloc (urlparse href) = base_domain ->
        scheme (urlparse href) = "http" \/ scheme (urlparse href) = "https" ->
        has_skipped_extension href = false ->
        href ∈ result.2)
  /\ (forall st0 request,
        let answer := (generate_sitemap st0 request).2 in
        let seed := req_url request in
        let crawl :=
          get_internal_links (crawl_start st0 request) seed (netloc (urlparse seed))
                             {[seed]} (req_max_pages request) in
        succeeded answer = true ->
        links_of answer = crawl.2 /\ sitemap_locs answer = elements crawl.2).
Proof.
  intros result calls. subst result calls.
  pose proof (recursive_calls_run st url base_domain visited max_pages) as Hrun.
  pose proof (get_internal_links_calls_fuel_kept _ _ _ _ _ _ _ Hrun)
    as (_ & Hset & Hcalls). cbn [fst snd] in Hset, Hcalls.
  split; [exact Hrun|]. split; [rewrite Hset; set_solver|]. split; [exact Hset|]. split.
  - intros call [<- | Hin] status_code content_type pre link post href
           Hroom Hpage Hstatus Hhtml Hpre Hjoin Hhost Hscheme Hext.
    + by eapply page_anchor_kept.
    + apply list_elem_of_In, Hcalls in Hin as [_ Hkept]. apply Hkept.
      by eapply page_anchor_kept.
  - intros st0 request answer seed crawl Hok. subst answer seed crawl.
    change (get_internal_links (crawl_start st0 request) (req_url request)
              (netloc (urlparse (req_url request))) {[req_url request]}
              (req_max_pages request))
      with (crawl_of st0 request).
    rewrite sitemap_locs_links.
    destruct (generate_sitemap st0 request)
      as [st' [status detail| |file doc links n delay]] eqn:Hanswer; simpl in *;
      try discriminate.
    apply generate_sitemap_success in Hanswer as (_ & _ & -> & _). done.
Qed.

(** C5. When the robots policy disallows the seed URL, the job is
    rejected and no page is requested. For every request that gets to the
    robots check, that is every request within the page limit, the error
    is the 403 one and the only network read is the one of robots.txt;
    a request beyond the limit was rejected with 400 before, and has
    requested no page either. *)
Theorem robots_disallow_rejects st request :
  (check_robots_txt st (req_url request)).2.1 = false ->
  let result := generate_sitemap st request in
  page_fetches (log result.1) = page_fetches (log st)
  /\ links_of result.2 = ∅
  /\ ((req_max_pages request <= MAX_PAGES_LIMIT)%Z ->
      result = ((check_robots_txt st (req_url request)).1,
                HTTPException 403
                  "This website does not allow crawling according to robots.txt")
      /\ exists robots_url elapsed,
           log result.1 = (log st ++ [RobotsFetch robots_url elapsed])%list)
  /\ ((req_max_pages request > MAX_PAGES_LIMIT)%Z ->
      result = (st, HTTPException 400 "max_pages cannot exceed 500")).
Proof.
  intros Hrobots result. subst result. unfold Main.generate_sitemap. cbn zeta.
  destruct (Z.gtb_spec (req_max_pages request) MAX_PAGES_LIMIT) as [Hbig|Hok].
  { repeat split; try done; lia. }
  assert (exists robots_url elapsed,
            log (check_robots_txt st (req_url request)).1
            = (log st ++ [RobotsFetch robots_url elapsed])%list) as (robots_url & elapsed & Hlog).
  { unfold Main.check_robots_txt. cbn zeta.
    destruct (urlopen _ _) as [[w elapsed] r].
    destruct (RobotFileParser.read _ _); simpl; eauto. }
  destruct (check_robots_txt st (req_url request)) as [st1 [can_fetch crawl_delay]].
  simpl in Hrobots, Hlog. subst can_fetch. cbn [negb fst snd links_of].
  repeat split; try done; try lia.
  - rewrite Hlog. unfold page_fetches. rewrite filter_app. simpl.
    rewrite filter_cons_False, filter_nil, app_nil_r; done.
  - eauto.
Qed.

(** C8, as the program has it. A request is rejected for its
    [max_pages] exactly when that exceeds [MAX_PAGES_LIMIT]; it is then
    rejected with status 400 before anything is read from the network.
    There is no lower bound: a request with [max_pages < 1] that the
    robots policy allows is processed. Its traversal returns at once
    with the seed alone and requests no page, and the job is answered
    with a sitemap holding the seed URL alone exactly when
    [os.makedirs] and [tree.write] return; when one of them raises, the
    answer is the 500 one. *)
Theorem max_pages_validation st request :
  let result := generate_sitemap st request in
  let url := req_url request in
  let checked := check_robots_txt st url in
  ((req_max_pages request > MAX_PAGES_LIMIT)%Z ->
     result = (st, HTTPException 400 "max_pages cannot exceed 500"))
  /\ ((req_max_pages request <= MAX_PAGES_LIMIT)%Z ->
      forall detail, result.2 <> HTTPException 400 detail)
  /\ ((req_max_pages request < 1)%Z ->
      checked.2.1 = true ->
      crawl_of st request = (crawl_start st request, {[url]})
      /\ page_fetches (log result.1) = page_fetches (log st)
      /\ (succeeded result.2 = true <->
          (makedirs checked.1 "sitemaps").2 = true
          /\ (write_tree (crawl_start st request) (output_file_of url)
                         (build_urlset {[url]})).2 = true)
      /\ (succeeded result.2 = true ->
          result.2 = Success (output_file_of url) (build_urlset {[url]}) {[url]} 1
                             checked.2.2)
      /\ (succeeded result.2 = false -> result.2 = InternalServerError)).
Proof.
  intros result url checked. subst result url checked.
  destruct (generate_sitemap_cases st request)
    as [[Hbig Hr] | [Hle [[Hno Hr] | [Hyes Hfiles]]]].
  { rewrite Hr. split; [done|]. split; [lia|]. intros Hlow. unfold MAX_PAGES_LIMIT in *. lia. }
  { rewrite Hr. split; [lia|]. split; [done|]. intros _ Hcan. congruence. }
  split; [lia|]. split.
  { intros _ detail.
    destruct Hfiles as [[_ Hr] | [_ [[_ Hr] | [_ Hr]]]]; rewrite Hr; done. }
  intros Hlow _.
  assert (crawl_of st request = (crawl_start st request, {[req_url request]})) as Hcrawl.
  { unfold Main.crawl_of. cbn zeta. rewrite get_internal_links_unfold, size_singleton.
    destruct (Z.geb_spec (Z.of_nat 1) (req_max_pages request)) as [_|Hroom]; [done|lia]. }
  split; [exact Hcrawl|].
  destruct (check_robots_txt_log_one st (req_url request)) as (robots_url & elapsed & Hlog).
  assert (page_fetches (log (crawl_start st request)) = page_fetches (log st)) as Hnone.
  { rewrite crawl_start_log, Hlog. unfold page_fetches. rewrite filter_app. simpl.
    rewrite filter_cons_False, filter_nil, app_nil_r; done. }
  rewrite Hcrawl in Hfiles. cbn [fst snd] in Hfiles.
  destruct Hfiles as [[Hdir Hr] | [Hdir [[Hfile Hr] | [Hfile Hr]]]]; rewrite Hr;
    cbn [fst snd succeeded].
  - split; [exact Hnone|].
    split; [split; [done|intros [? _]; congruence]|]. done.
  - rewrite write_tree_log. split; [done|].
    split; [split; [done|intros [_ ?]; congruence]|]. done.
  - rewrite write_tree_log, size_singleton. split; [done|]. done.
Qed.



(** C9. The tree built for a set of links has the root [urlset] with
    the single attribute [xmlns] set to the sitemap 0.9 namespace and no
    text; its children are [url] elements without attributes or text,
    each with the one child [loc], which has no attributes or children
    and the URL as its text; every link of the set has exactly one such
    [url] child, and there are no other children. *)
Theorem sitemap_document_shape (links : gset string) :
  exists order : list string,
    build_urlset links
    = mkElement "urlset" [("xmlns", "http://www.sitemaps.org/schemas/sitemap/0.9")] None
        (map (fun link => mkElement "url" [] None [mkElement "loc" [] (Some link) []])
             order)
    /\ NoDup order
    /\ (forall link, link ∈ order <-> link ∈ links)
    /\ length (children_of (build_urlset links)) = size links.
Proof.
  exists (elements links). rewrite build_urlset_children. split; [done|].
  split; [apply NoDup_elements|]. split; [intros link; apply elem_of_elements|].
  simpl. by rewrite length_map.
Qed.

End CrawlerFacts.

(** * Further properties of the program *)

Section CrawlerMore.

Context {World : Type}.
Variable urlparse : string -> ParseResult.
Variable urljoin : string -> string -> option string.
Variable requests_get : World -> string -> World * Z * Response.
Variable urlopen : World -> string -> World * Z * RobotsRead.
Variable os_makedirs : World -> string -> World * bool.
Variable tree_write : World -> string -> Element -> World * bool.

Local Abbreviation Sim := (@Sim World).
Local Abbreviation is_new_internal_page := (is_new_internal_page urlparse).
Local Abbreviation for_links := (for_links urlparse urljoin).
Local Abbreviation fetch_page := (fetch_page requests_get).
Local Abbreviation get_internal_links_fuel :=
  (get_internal_links_fuel urlparse urljoin requests_get).
Local Abbreviation get_internal_links := (get_internal_links urlparse urljoin requests_get).
Local Abbreviation check_robots_txt := (check_robots_txt urlparse urlopen).
Local Abbreviation makedirs := (makedirs os_makedirs).
Local Abbreviation write_tree := (write_tree tree_write).
Local Abbreviation crawl_start := (crawl_start urlparse urlopen os_makedirs).
Local Abbreviation crawl_of := (crawl_of urlparse urljoin requests_get urlopen os_makedirs).
Local Abbreviation generate_sitemap :=
  (generate_sitemap urlparse urljoin requests_get urlopen os_makedirs tree_write).
Local Abbreviation crawl_step := (crawl_step urlparse requests_get).
Local Abbreviation linked_from := (linked_from urljoin requests_get).
Local Abbreviation output_file_of := (output_file_of urlparse).
Local Abbreviation closed_page := (closed_page urlparse urljoin).

Implicit Types (st : Sim) (visited : gset string) (url href base_domain : string).

(** ** The ways a request ends *)

Lemma generate_sitemap_allowed st request :
  (req_max_pages request <= MAX_PAGES_LIMIT)%Z ->
  (check_robots_txt st (req_url request)).2.1 = true ->
  let url := req_url request in
  let checked := check_robots_txt st url in
  let prepared := makedirs checked.1 "sitemaps" in
  let crawl := crawl_of st request in
  let written := write_tree crawl.1 (output_file_of url) (build_urlset crawl.2) in
  generate_sitemap st request
  = if prepared.2
    then (written.1,
          if written.2
          then Success (output_file_of url) (build_urlset crawl.2) crawl.2
                       (Z.of_nat (size crawl.2)) checked.2.2
          else InternalServerError)
    else (prepared.1, InternalServerError).
Proof.
  intros Hlimit Hallowed. cbn zeta.
  destruct (generate_sitemap_cases urlparse urljoin requests_get urlopen os_makedirs
              tree_write st request)
    as [[Hbig _] | [_ [[Hno _] | [_ [[Hdir Hr] | [Hdir [[Hfile Hr] | [Hfile Hr]]]]]]]];
    [lia|congruence|rewrite Hr, ?Hdir, ?Hfile; done..].
Qed.

Lemma generate_sitemap_forbidden st request :
  (req_max_pages request <= MAX_PAGES_LIMIT)%Z ->
  (check_robots_txt st (req_url request)).2.1 = false ->
  generate_sitemap st request
  = ((check_robots_txt st (req_url request)).1,
     HTTPException 403 "This website does not allow crawling according to robots.txt").
Proof.
  intros Hlimit Hrefused.
  destruct (generate_sitemap_cases urlparse urljoin requests_get urlopen os_makedirs
              tree_write st request)
    as [[Hbig _] | [_ [[_ Hr] | [Hyes _]]]]; [lia|exact Hr|congruence].
Qed.

Lemma crawl_of_fuel st request :
  get_internal_links_fuel (crawl_depth (req_max_pages request) {[req_url request]})
    (crawl_start st request) (req_url request) (netloc (urlparse (req_url request)))
    {[req_url request]} (req_max_pages request)
  = Some (crawl_of st request).
Proof. by apply get_internal_links_fuel_enough. Qed.

Lemma crawl_of_seed st request : req_url request ∈ (crawl_of st request).2.
Proof.
  pose proof (crawl_of_steps urlparse urljoin requests_get urlopen os_makedirs st request)
    as Hsteps.
  apply (crawl_steps_grow urlparse urljoin requests_get) in Hsteps. set_solver.
Qed.

(** Where a job leaves the log and what its answer lists. *)
Lemma generate_sitemap_run st request :
  let result := generate_sitemap st request in
  let checked := check_robots_txt st (req_url request) in
  let crawl := crawl_of st request in
  ((req_max_pages request > MAX_PAGES_LIMIT)%Z
   /\ log result.1 = log st /\ succeeded result.2 = false)
  \/ ((req_max_pages request <= MAX_PAGES_LIMIT)%Z
      /\ ((log result.1 = log checked.1 /\ succeeded result.2 = false)
          \/ (checked.2.1 = true
              /\ log result.1 = log crawl.1
              /\ (succeeded result.2 = false
                  \/ (succeeded result.2 = true /\ links_of result.2 = crawl.2))))).
Proof.
  cbn zeta.
  destruct (generate_sitemap_cases urlparse urljoin requests_get urlopen os_makedirs
              tree_write st request)
    as [[Hbig Hr] | [Hle [[Hno Hr] | [Hyes [[Hdir Hr] | [Hdir [[Hfile Hr] | [Hfile Hr]]]]]]]];
    rewrite Hr; cbn [fst snd succeeded links_of].
  - left. done.
  - right. split; [done|]. left. done.
  - right. split; [done|]. left. split; [|done]. apply makedirs_log.
  - right. split; [done|]. right. split; [done|]. split; [apply write_tree_log|]. by left.
  - right. split; [done|]. right. split; [done|]. split; [apply write_tree_log|]. by right.
Qed.

Lemma links_of_succeeded (answer : Outcome) href :
  href ∈ links_of answer -> succeeded answer = true.
Proof. destruct answer; simpl; set_solver. Qed.

Lemma links_of_failed (answer : Outcome) :
  succeeded answer = false -> links_of answer = ∅.
Proof. by destruct answer. Qed.

(** What a job lists is what its traversal returned. *)
Lemma links_of_crawl st request :
  let result := generate_sitemap st request in
  forall href, href ∈ links_of result.2 ->
    links_of result.2 = (crawl_of st request).2.
Proof.
  intros result href Hin. subst result. apply links_of_succeeded in Hin as Hok.
  destruct (generate_sitemap_run st request)
    as [(_ & _ & Hr) | (_ & [[_ Hr] | (_ & _ & [Hr | [_ Hr]])])]; congruence.
Qed.

(** X1. The answer to a request within the page limit is settled by the
    robots check and the two calls on the file system, [os.makedirs]
    before the traversal and [tree.write] after it: 403 exactly when the
    check refuses the seed; the error of the framework (500) exactly when
    the check allows it and one of the two calls raises; the sitemap
    exactly when the check allows it and both calls return. The sitemap
    answer reports the delay the check returned and the set the traversal
    returned, its [url_count] is the number of [url] elements of the tree,
    the seed is among the links, and so the count is at least 1. *)
Theorem job_answer_within_limit st request :
  (req_max_pages request <= MAX_PAGES_LIMIT)%Z ->
  let url := req_url request in
  let checked := check_robots_txt st url in
  let prepared := makedirs checked.1 "sitemaps" in
  let crawl := crawl_of st request in
  let written := write_tree crawl.1 (output_file_of url) (build_urlset crawl.2) in
  let answer := (generate_sitemap st request).2 in
  (checked.2.1 = false <-> exists detail, answer = HTTPException 403 detail)
  /\ (checked.2.1 = true /\ (prepared.2 = false \/ written.2 = false)
      <-> answer = InternalServerError)
  /\ (checked.2.1 = true /\ prepared.2 = true /\ written.2 = true
      <-> succeeded answer = true)
  /\ (succeeded answer = true ->
      exists document url_count,
        answer = Success (output_file_of url) document crawl.2 url_count checked.2.2
        /\ url ∈ crawl.2
        /\ document = build_urlset crawl.2
        /\ url_count = Z.of_nat (length (children_of document))
        /\ url_count = Z.of_nat (size crawl.2)
        /\ (1 <= url_count)%Z).
Proof.
  intros Hlimit url checked prepared crawl written answer.
  subst url checked prepared crawl written answer.
  destruct ((check_robots_txt st (req_url request)).2.1) eqn:Hcheck.
  2:{ rewrite (generate_sitemap_forbidden _ _ Hlimit Hcheck). cbn [snd succeeded].
      split; [split; [eauto|done]|].
      split; [split; [by intros [[=] _]|done]|].
      split; [split; [by intros [[=] _]|done]|done]. }
  rewrite (generate_sitemap_allowed _ _ Hlimit Hcheck). cbn zeta.
  destruct ((makedirs (check_robots_txt st (req_url request)).1 "sitemaps").2) eqn:Hdir;
    cbn [snd succeeded].
  2:{ split; [split; [done|by intros [detail [=]]]|].
      split; [split; [done|intros _; split; [done|by left]]|].
      split; [split; [by intros (_ & [=] & _)|done]|done]. }
  destruct ((write_tree _ _ _).2) eqn:Hfile; cbn [succeeded].
  2:{ split; [split; [done|by intros [detail [=]]]|].
      split; [split; [done|intros _; split; [done|by right]]|].
      split; [split; [by intros (_ & _ & [=])|done]|done]. }
  split; [split; [done|by intros [detail [=]]]|].
  split; [split; [by intros [_ [[=]|[=]]]|done]|].
  split; [done|]. intros _.
  pose proof (crawl_of_seed st request) as Hseed.
  do 2 eexists. split; [reflexivity|]. split; [exact Hseed|]. split; [done|].
  rewrite build_urlset_children. cbn [children_of].
  rewrite length_map. change (length (elements (crawl_of st request).2))
    with (size (crawl_of st request).2).
  split; [done|]. split; [done|].
  assert (size (crawl_of st request).2 ≠ 0%nat) as Hsize; [|lia].
  intros Hempty. apply size_empty_inv in Hempty. set_solver.
Qed.

(** X2. Every URL of the result set other than the seed has the scheme
    [http] or [https]: a [mailto:] or [javascript:] link is never listed. *)
Theorem result_urls_http st request href :
  let result := generate_sitemap st request in
  href ∈ links_of result.2 ->
  href <> req_url request ->
  scheme (urlparse href) = "http" \/ scheme (urlparse href) = "https".
Proof.
  intros result Hin Hseed. subst result.
  apply (generate_sitemap_links_steps urlparse urljoin requests_get urlopen os_makedirs
           tree_write) in Hin as (c & Hsteps & Hin).
  eapply (crawl_steps_added urlparse urljoin requests_get) in Hsteps as (_ & Hscheme & _);
    [exact Hscheme|exact Hin|].
  simpl. by apply not_elem_of_singleton.
Qed.

(** X3. When the seed page cannot be read as HTML (the request raises,
    the status is 4xx or 5xx, or the content type does not contain
    [text/html]), the traversal returns the set it was given: after the
    one request, without a sleep, when the set is below the limit. *)
Theorem unreadable_page_ends_branch st url base_domain visited max_pages :
  let response := (fetch_page st url).2 in
  response = RequestException
  \/ (exists status_code content_type hrefs,
        response = HTTPResponse status_code content_type hrefs
        /\ (raises_for_status status_code = true \/ is_html content_type = false)) ->
  get_internal_links st url base_domain visited max_pages
  = (if (Z.of_nat (size visited) >=? max_pages)%Z then st else (fetch_page st url).1,
     visited).
Proof.
  intros response Hbad. subst response. rewrite get_internal_links_unfold.
  destruct (Z.of_nat (size visited) >=? max_pages)%Z; [done|].
  destruct (fetch_page st url) as [st1 response]. cbn [fst snd] in *.
  destruct Hbad as [-> | (status_code & content_type & hrefs & -> & Hbad)]; [done|].
  destruct (raises_for_status status_code); [done|].
  destruct Hbad as [[=] | ->]. done.
Qed.

(** X4. A job whose seed page cannot be read as HTML lists the seed
    alone: once the robots check allows the seed and [os.makedirs]
    returns, the tree written holds the seed and nothing else, and the
    answer is the sitemap of the seed when [tree.write] returns and the
    error of the framework (500) when it raises. *)
Theorem unreadable_seed_lists_seed_alone st request :
  (req_max_pages request <= MAX_PAGES_LIMIT)%Z ->
  let url := req_url request in
  let checked := check_robots_txt st url in
  let prepared := makedirs checked.1 "sitemaps" in
  let response := (fetch_page prepared.1 url).2 in
  let crawled :=
    if (1 >=? req_max_pages request)%Z then prepared.1 else (fetch_page prepared.1 url).1 in
  let written := write_tree crawled (output_file_of url) (build_urlset {[url]}) in
  checked.2.1 = true ->
  prepared.2 = true ->
  response = RequestException
  \/ (exists status_code content_type hrefs,
        response = HTTPResponse status_code content_type hrefs
        /\ (raises_for_status status_code = true \/ is_html content_type = false)) ->
  crawl_of st request = (crawled, {[url]})
  /\ generate_sitemap st request
     = (written.1,
        if written.2
        then Success (output_file_of url) (build_urlset {[url]}) {[url]} 1 checked.2.2
        else InternalServerError).
Proof.
  intros Hlimit url checked prepared response crawled written Hallowed Hdir Hbad.
  subst url checked prepared response crawled written.
  assert (crawl_of st request
          = (if (1 >=? req_max_pages request)%Z
             then (makedirs (check_robots_txt st (req_url request)).1 "sitemaps").1
             else (fetch_page (makedirs (check_robots_txt st (req_url request)).1
                                        "sitemaps").1 (req_url request)).1,
             {[req_url request]})) as Hcrawl.
  { unfold Main.crawl_of, Main.crawl_start. cbn zeta.
    rewrite (unreadable_page_ends_branch _ _ _ _ _ Hbad). by rewrite size_singleton. }
  split; [exact Hcrawl|].
  rewrite (generate_sitemap_allowed _ _ Hlimit Hallowed). cbn zeta.
  rewrite Hdir, Hcrawl. cbn [fst snd]. by rewrite size_singleton.
Qed.

(** X5. With [max_pages <= 1] no page is requested: once the robots check
    allows the seed and [os.makedirs] returns, the traversal returns the
    seed alone without a request, and the job is answered right after
    [tree.write], with the sitemap of the seed when the write returns and
    the error of the framework (500) when it raises. *)
Theorem single_page_limit st request :
  (req_max_pages request <= 1)%Z ->
  let url := req_url request in
  let checked := check_robots_txt st url in
  let prepared := makedirs checked.1 "sitemaps" in
  let written := write_tree prepared.1 (output_file_of url) (build_urlset {[url]}) in
  checked.2.1 = true ->
  prepared.2 = true ->
  crawl_of st request = (prepared.1, {[url]})
  /\ page_fetches (log (generate_sitemap st request).1) = page_fetches (log st)
  /\ generate_sitemap st request
     = (written.1,
        if written.2
        then Success (output_file_of url) (build_urlset {[url]}) {[url]} 1 checked.2.2
        else InternalServerError).
Proof.
  intros Hone url checked prepared written Hallowed Hdir.
  subst url checked prepared written.
  assert (crawl_of st request
          = ((makedirs (check_robots_txt st (req_url request)).1 "sitemaps").1,
             {[req_url request]})) as Hcrawl.
  { unfold Main.crawl_of, Main.crawl_start. cbn zeta.
    rewrite get_internal_links_unfold, size_singleton.
    destruct (Z.geb_spec (Z.of_nat 1) (req_max_pages request)) as [_|Hroom]; [done|lia]. }
  split; [exact Hcrawl|].
  rewrite generate_sitemap_allowed by (unfold MAX_PAGES_LIMIT; lia || done).
  cbn zeta. rewrite Hdir, Hcrawl. cbn [fst snd]. rewrite size_singleton.
  split; [|done].
  rewrite write_tree_log, makedirs_log.
  destruct (check_robots_txt_log_one urlparse urlopen st (req_url request))
    as (robots_url & elapsed & ->).
  unfold page_fetches. rewrite filter_app. simpl.
  rewrite filter_cons_False, filter_nil, app_nil_r; done.
Qed.

(** ** Which pages are requested *)

Lemma fetched_urls_app (a b : list Event) :
  fetched_urls (a ++ b) = (fetched_urls a ++ fetched_urls b)%list.
Proof. unfold fetched_urls. apply flat_map_app. Qed.

Lemma fetched_urls_fetch_page st url :
  fetched_urls (log (fetch_page st url).1) = (fetched_urls (log st) ++ [url])%list.
Proof.
  unfold Main.fetch_page.
  destruct (requests_get (world st) url) as [[w elapsed] response]. simpl.
  by rewrite fetched_urls_app.
Qed.

Lemma fetched_urls_sleep st seconds :
  fetched_urls (log (sleep st seconds)) = fetched_urls (log st).
Proof. simpl. rewrite fetched_urls_app. simpl. by rewrite app_nil_r. Qed.

Lemma check_robots_txt_log st url :
  exists elapsed,
    log (check_robots_txt st url).1
    = (log st ++ [RobotsFetch (scheme (urlparse url) ++ "://" ++ netloc (urlparse url)
                               ++ "/robots.txt") elapsed])%list.
Proof.
  unfold Main.check_robots_txt. cbn zeta.
  destruct (urlopen _ _) as [[w elapsed] r]. exists elapsed.
  by destruct (RobotFileParser.read _ _).
Qed.

Lemma for_links_fetched recurse url base_domain links :
  (forall st u visited c,
      recurse st u visited = Some c ->
      u ∈ visited -> u ∉ fetched_urls (log st) ->
      NoDup (fetched_urls (log st)) ->
      (forall x, x ∈ fetched_urls (log st) -> x ∈ visited) ->
      NoDup (fetched_urls (log c.1))
      /\ (forall x, x ∈ fetched_urls (log c.1) -> x ∈ c.2)) ->
  forall st visited c,
    for_links recurse url base_domain links st visited = Some c ->
    NoDup (fetched_urls (log st)) ->
    (forall x, x ∈ fetched_urls (log st) -> x ∈ visited) ->
    NoDup (fetched_urls (log c.1))
    /\ (forall x, x ∈ fetched_urls (log c.1) -> x ∈ c.2).
Proof.
  intros Hrec. induction links as [|link links IH]; intros st visited c; simpl.
  - intros [= <-]. done.
  - destruct (urljoin url link) as [href|]; [|intros [= <-]; done].
    destruct (is_new_internal_page base_domain visited href) eqn:Hnew; [|apply IH].
    apply (is_new_internal_page_inv urlparse urljoin) in Hnew as (_ & _ & Hfresh & _).
    destruct (recurse st href ({[href]} ∪ visited)) as [[st1 visited1]|] eqn:Hcall;
      [|done].
    intros Hrest Hnodup Hsub.
    apply Hrec in Hcall as [Hnodup1 Hsub1]; [by apply (IH st1 visited1)| | |done|].
    + set_solver.
    + intros Hin. apply Hfresh, Hsub, Hin.
    + intros x Hx. apply Hsub in Hx. set_solver.
Qed.

Lemma get_internal_links_fuel_fetched fuel base_domain max_pages :
  forall st url visited c,
    get_internal_links_fuel fuel st url base_domain visited max_pages = Some c ->
    url ∈ visited -> url ∉ fetched_urls (log st) ->
    NoDup (fetched_urls (log st)) ->
    (forall x, x ∈ fetched_urls (log st) -> x ∈ visited) ->
    NoDup (fetched_urls (log c.1))
    /\ (forall x, x ∈ fetched_urls (log c.1) -> x ∈ c.2).
Proof.
  induction fuel as [|fuel IH]; intros st url visited c; simpl; [done|].
  destruct (Z.of_nat (size visited) >=? max_pages)%Z; [intros [= <-]; done|].
  pose proof (fetched_urls_fetch_page st url) as Hlog.
  destruct (fetch_page st url) as [st1 response]. simpl in Hlog.
  intros Hrun Hurl Hnew Hnodup Hsub.
  assert (NoDup (fetched_urls (log st1))
          /\ (forall x, x ∈ fetched_urls (log st1) -> x ∈ visited)) as [Hnodup1 Hsub1].
  { rewrite Hlog. split.
    - apply NoDup_app. split; [done|]. split; [|apply NoDup_singleton].
      intros x Hx ->%list_elem_of_singleton. done.
    - intros x [Hx | ->%list_elem_of_singleton]%elem_of_app; [by apply Hsub|done]. }
  destruct response as [|status_code content_type hrefs]; [by injection Hrun as <-|].
  destruct (raises_for_status status_code); [by injection Hrun as <-|].
  destruct (is_html content_type); simpl in Hrun; [|by injection Hrun as <-].
  eapply for_links_fetched in Hrun; [exact Hrun| |by rewrite fetched_urls_sleep..].
  intros st2 u visited2 c2. apply IH.
Qed.

Lemma generate_sitemap_fetched st request :
  fetched_urls (log st) = [] ->
  let result := generate_sitemap st request in
  NoDup (fetched_urls (log result.1))
  /\ (forall x, x ∈ fetched_urls (log result.1) -> x ∈ (crawl_of st request).2).
Proof.
  intros Hnone result. subst result.
  destruct (check_robots_txt_log st (req_url request)) as [elapsed Hlog].
  assert (fetched_urls (log (check_robots_txt st (req_url request)).1) = []) as Hnone1.
  { rewrite Hlog, fetched_urls_app, Hnone. done. }
  assert (fetched_urls (log (crawl_start st request)) = []) as Hnone2.
  { by rewrite (crawl_start_log urlparse urlopen os_makedirs). }
  destruct (generate_sitemap_run st request)
    as [(_ & -> & _) | (_ & [[-> _] | (_ & -> & _)])].
  - rewrite Hnone. split; [apply NoDup_nil_2|]. intros x Hx. by apply elem_of_nil in Hx.
  - rewrite Hnone1. split; [apply NoDup_nil_2|]. intros x Hx. by apply elem_of_nil in Hx.
  - pose proof (crawl_of_fuel st request) as Hrun.
    apply get_internal_links_fuel_fetched in Hrun; [done|set_solver|..];
      rewrite Hnone2; [|apply NoDup_nil_2|]; intros Hx; try intros Hx';
      by apply elem_of_nil in Hx || by apply elem_of_nil in Hx'.
Qed.

(** X6. Within one job no page is requested twice, and every page that
    was requested is in the set the traversal returns (whether or not it
    could be read); when the job is answered with a sitemap, the page is
    listed in it. *)
Theorem pages_requested_once st request :
  fetched_urls (log st) = [] ->
  let result := generate_sitemap st request in
  NoDup (fetched_urls (log result.1))
  /\ (forall url, url ∈ fetched_urls (log result.1) ->
        url ∈ (crawl_of st request).2
        /\ (succeeded result.2 = true ->
            url ∈ links_of result.2 /\ In url (sitemap_locs result.2))).
Proof.
  intros Hnone result. subst result.
  destruct (generate_sitemap_fetched st request Hnone) as [Hnodup Hsub].
  split; [exact Hnodup|]. intros url Hurl. apply Hsub in Hurl. split; [exact Hurl|].
  intros Hok.
  assert (links_of (generate_sitemap st request).2 = (crawl_of st request).2) as Hlinks.
  { destruct (generate_sitemap_run st request)
      as [(_ & _ & Hr) | (_ & [[_ Hr] | (_ & _ & [Hr | [_ Hr]])])]; congruence. }
  rewrite (sitemap_locs_links urlparse urljoin requests_get urlopen os_makedirs tree_write),
    Hlinks.
  split; [exact Hurl|]. by apply list_elem_of_In, elem_of_elements.
Qed.

(** X7. Every URL the program hands to the network is on the host of the
    seed: each URL passed to [requests.get] has the [netloc] of the seed
    URL, and the one URL passed to [urlopen] is [/robots.txt] of the
    seed's scheme and [netloc]. The log holds the URLs of the calls; what
    [requests] or [urlopen] request on their own while following a
    redirect is part of the answer of the call and is not stated here. *)
Theorem requested_urls_on_seed_host st request :
  log st = [] ->
  let result := generate_sitemap st request in
  let seed := urlparse (req_url request) in
  forall e, e ∈ log result.1 ->
    match e with
    | PageFetch url _ => netloc (urlparse url) = netloc seed
    | RobotsFetch url _ => url = scheme seed ++ "://" ++ netloc seed ++ "/robots.txt"
    | Sleep _ => True
    end.
Proof.
  intros Hempty result seed. subst result seed.
  assert (fetched_urls (log st) = []) as Hnone by by rewrite Hempty.
  destruct (generate_sitemap_fetched st request Hnone) as [_ Hsub].
  pose proof (crawl_of_steps urlparse urljoin requests_get urlopen os_makedirs st request)
    as Hsteps.
  assert (forall url elapsed, PageFetch url elapsed ∈ log (generate_sitemap st request).1 ->
            netloc (urlparse url) = netloc (urlparse (req_url request))) as Hpages.
  { intros url elapsed Hin.
    assert (url ∈ fetched_urls (log (generate_sitemap st request).1)) as Hurl.
    { apply list_elem_of_In, in_flat_map. exists (PageFetch url elapsed).
      split; [by apply list_elem_of_In|by left]. }
    apply Hsub in Hurl.
    destruct (decide (url = req_url request)) as [->|Hseed]; [done|].
    eapply (crawl_steps_added urlparse urljoin requests_get) in Hsteps as (Hhost & _);
      [exact Hhost|exact Hurl|].
    simpl. by apply not_elem_of_singleton. }
  intros [robots_url elapsed|url elapsed|duration] Hin; [|by eapply Hpages|done].
  destruct (check_robots_txt_log st (req_url request)) as [elapsed0 Hlog].
  rewrite Hempty in Hlog. simpl in Hlog.
  destruct (generate_sitemap_run st request)
    as [(_ & Hl & _) | (_ & [[Hl _] | (_ & Hl & _)])]; rewrite Hl in Hin; clear Hl.
  - rewrite Hempty in Hin. by apply elem_of_nil in Hin.
  - rewrite Hlog in Hin. by apply list_elem_of_singleton in Hin as [= -> _].
  - revert Hin. generalize (crawl_of st request), Hsteps.
    clear Hsteps Hpages Hsub. intros c Hsteps.
    remember (crawl_start st request, {[req_url request]}) as c0 eqn:Hc0.
    assert (forall e, e ∈ log c0.1 ->
              match e with RobotsFetch u _ =>
                u = scheme (urlparse (req_url request)) ++ "://"
                    ++ netloc (urlparse (req_url request)) ++ "/robots.txt"
              | _ => True end) as Hstart.
    { subst c0. cbn [fst]. rewrite (crawl_start_log urlparse urlopen os_makedirs), Hlog.
      intros e ->%list_elem_of_singleton. done. }
    clear Hc0 Hlog. intros Hin.
    enough (forall e, e ∈ log c.1 ->
              match e with RobotsFetch u _ =>
                u = scheme (urlparse (req_url request)) ++ "://"
                    ++ netloc (urlparse (req_url request)) ++ "/robots.txt"
              | _ => True end) as Hend by exact (Hend _ Hin).
    clear Hin. induction Hsteps as [c|c1 c2 c3 Hstep _ IH]; [exact Hstart|].
    apply IH. destruct Hstep as [st1 visited1 u|st1 visited1|st1 visited1 h Hh];
      cbn [fst] in *; try exact Hstart.
    + unfold Main.fetch_page. destruct (requests_get _ _) as [[w el] r]. simpl.
      intros e [He | ->%list_elem_of_singleton]%elem_of_app; [by apply Hstart|done].
    + simpl. intros e [He | ->%list_elem_of_singleton]%elem_of_app; [by apply Hstart|done].
Qed.

(** ** Where the listed URLs come from *)

Lemma for_links_linked recurse url base_domain w w' elapsed status_code content_type hrefs :
  requests_get w url = (w', elapsed, HTTPResponse status_code content_type hrefs) ->
  raises_for_status status_code = false ->
  is_html content_type = true ->
  (forall st u visited c,
      recurse st u visited = Some c ->
      visited ⊆ c.2
      /\ forall x, x ∈ c.2 ->
           x ∈ visited \/ exists page, (page = u \/ page ∈ c.2) /\ linked_from page x) ->
  forall links, incl links hrefs ->
  forall st visited c,
    for_links recurse url base_domain links st visited = Some c ->
    visited ⊆ c.2
    /\ forall x, x ∈ c.2 ->
         x ∈ visited \/ exists page, (page = url \/ page ∈ c.2) /\ linked_from page x.
Proof.
  intros Hpage Hstatus Hhtml Hrec.
  induction links as [|link links IH]; intros Hincl st visited c; simpl.
  - intros [= <-]. split; [done|]. by left.
  - assert (incl links hrefs) as Hincl' by (intros l Hl; apply Hincl; by right).
    destruct (urljoin url link) as [href|] eqn:Hjoin;
      [|intros [= <-]; split; [done|by left]].
    destruct (is_new_internal_page base_domain visited href); [|by apply IH].
    destruct (recurse st href ({[href]} ∪ visited)) as [[st1 visited1]|] eqn:Hcall;
      [|done].
    intros Hrest. apply Hrec in Hcall as [Hsub1 Hfrom1].
    apply IH in Hrest as [Hsub Hfrom]; [|done]. cbn [snd] in *.
    split; [set_solver|]. intros x Hx.
    destruct (Hfrom x Hx) as [Hx1 | Hlinked]; [|by right].
    destruct (Hfrom1 x Hx1) as [[->%elem_of_singleton | Hold]%elem_of_union
                               | (page & Hwhere & Hlinked)].
    + right. exists url. split; [by left|]. exists w, link. rewrite Hpage.
      repeat split; try done. apply Hincl. by left.
    + by left.
    + right. exists page. split; [|done]. right.
      destruct Hwhere as [-> | Hin]; apply Hsub; [apply Hsub1|done]. set_solver.
Qed.

Lemma get_internal_links_fuel_linked fuel base_domain max_pages :
  forall st url visited c,
    get_internal_links_fuel fuel st url base_domain visited max_pages = Some c ->
    visited ⊆ c.2
    /\ forall x, x ∈ c.2 ->
         x ∈ visited \/ exists page, (page = url \/ page ∈ c.2) /\ linked_from page x.
Proof.
  assert (forall st visited url c,
            Some (st, visited) = Some c ->
            visited ⊆ c.2
            /\ forall x, x ∈ c.2 ->
                 x ∈ visited
                 \/ exists page, (page = url \/ page ∈ c.2) /\ linked_from page x)
    as Hsame.
  { intros st visited url c [= <-]. split; [done|]. intros x Hx. left. exact Hx. }
  induction fuel as [|fuel IH]; intros st url visited c; simpl; [done|].
  destruct (Z.of_nat (size visited) >=? max_pages)%Z; [apply Hsame|].
  unfold Main.fetch_page.
  destruct (requests_get (world st) url) as [[w elapsed] response] eqn:Hpage.
  cbn beta iota zeta.
  destruct response as [|status_code content_type hrefs]; [apply Hsame|].
  destruct (raises_for_status status_code) eqn:Hstatus; [apply Hsame|].
  destruct (is_html content_type) eqn:Hhtml; simpl; [|apply Hsame].
  apply (for_links_linked _ _ _ _ _ _ _ _ _ Hpage Hstatus Hhtml); [|apply incl_refl].
  intros st2 u visited2 c2. apply IH.
Qed.

(** X8. The sitemap lists nothing that was not linked: every URL of the
    result set other than the seed is what [urljoin] made of an anchor of
    a page of the result set that answered with HTML and a good status. *)
Theorem links_come_from_pages st request href :
  let result := generate_sitemap st request in
  href ∈ links_of result.2 ->
  href = req_url request
  \/ exists page, page ∈ links_of result.2 /\ linked_from page href.
Proof.
  intros result Hin. subst result.
  pose proof (links_of_crawl st request href Hin) as Hlinks. cbn zeta in Hlinks.
  rewrite Hlinks in Hin |- *. clear Hlinks.
  pose proof (crawl_of_fuel st request) as Hfuel.
  apply get_internal_links_fuel_linked in Hfuel as [Hsub Hfrom].
  cbn [snd] in *.
  destruct (Hfrom href Hin) as [->%elem_of_singleton | (page & Hwhere & Hlinked)];
    [by left|].
  right. exists page. split; [|done]. destruct Hwhere as [-> | Hpage]; [|done].
  apply Hsub. set_solver.
Qed.

(** ** What a job does on the network *)

Lemma slept_app (a b : list Event) : slept (a ++ b) = (slept a + slept b)%Z.
Proof.
  unfold slept. induction a as [|[| |d] a IH]; simpl; rewrite ?IH; lia.
Qed.

Lemma page_fetches_app (a b : list Event) :
  page_fetches (a ++ b) = (page_fetches a ++ page_fetches b)%list.
Proof. unfold page_fetches. apply filter_app. Qed.

Lemma crawl_steps_events base_domain c c' :
  rtc (crawl_step base_domain) c c' ->
  exists events,
    log c'.1 = (log c.1 ++ events)%list
    /\ Forall (fun e => is_crawl_event e = true) events.
Proof.
  induction 1 as [c|c1 c2 c3 Hstep _ (events & IH & Hall)].
  - exists []. by rewrite app_nil_r.
  - rewrite IH. destruct Hstep as [st visited url|st visited|st visited new Hnew]; simpl.
    + unfold Main.fetch_page.
      destruct (requests_get (world st) url) as [[w elapsed] response]; simpl.
      rewrite <- app_assoc. eexists. split; [done|]. by constructor.
    + rewrite <- app_assoc. eexists. split; [done|]. by constructor.
    + eauto.
Qed.

Lemma for_links_slept recurse url base_domain links :
  (forall st u visited c,
      recurse st u visited = Some c ->
      (slept (log c.1) + 1000 * CRAWL_DELAY * Z.of_nat (length (page_fetches (log st)))
       <= slept (log st)
          + 1000 * CRAWL_DELAY * Z.of_nat (length (page_fetches (log c.1))))%Z) ->
  forall st visited c,
    for_links recurse url base_domain links st visited = Some c ->
    (slept (log c.1) + 1000 * CRAWL_DELAY * Z.of_nat (length (page_fetches (log st)))
     <= slept (log st)
        + 1000 * CRAWL_DELAY * Z.of_nat (length (page_fetches (log c.1))))%Z.
Proof.
  intros Hrec. induction links as [|link links IH]; intros st visited c; simpl.
  - intros [= <-]. simpl. lia.
  - destruct (urljoin url link) as [href|]; [|intros [= <-]; simpl; lia].
    destruct (is_new_internal_page base_domain visited href); [|apply IH].
    destruct (recurse st href ({[href]} ∪ visited)) as [[st1 visited1]|] eqn:Hcall;
      [|done].
    intros Hrest. apply Hrec in Hcall. apply IH in Hrest. simpl in Hcall. lia.
Qed.

Lemma get_internal_links_fuel_slept fuel base_domain max_pages :
  forall st url visited c,
    get_internal_links_fuel fuel st url base_domain visited max_pages = Some c ->
    (slept (log c.1) + 1000 * CRAWL_DELAY * Z.of_nat (length (page_fetches (log st)))
     <= slept (log st)
        + 1000 * CRAWL_DELAY * Z.of_nat (length (page_fetches (log c.1))))%Z.
Proof.
  induction fuel as [|fuel IH]; intros st url visited c; simpl; [done|].
  destruct (Z.of_nat (size visited) >=? max_pages)%Z; [intros [= <-]; simpl; lia|].
  pose proof (page_fetches_fetch_page requests_get st url) as Hone.
  assert (slept (log (fetch_page st url).1) = slept (log st)) as Hsame.
  { unfold Main.fetch_page. destruct (requests_get _ _) as [[w elapsed] r]. simpl.
    rewrite slept_app. simpl. lia. }
  destruct (fetch_page st url) as [st1 [|status_code content_type hrefs]];
    cbn [fst] in Hone, Hsame.
  { intros [= <-]. simpl. unfold CRAWL_DELAY. lia. }
  destruct (raises_for_status status_code);
    [intros [= <-]; simpl; unfold CRAWL_DELAY; lia|].
  destruct (is_html content_type); simpl;
    [|intros [= <-]; simpl; unfold CRAWL_DELAY; lia].
  intros Hloop. eapply for_links_slept in Hloop.
  - revert Hloop. simpl. rewrite slept_app, page_fetches_app. simpl.
    rewrite app_nil_r, Hone, Hsame. unfold CRAWL_DELAY. lia.
  - intros st2 u visited2 c2. apply IH.
Qed.

(** X9. A job within the page limit reads robots.txt exactly once, before
    anything else; what follows are page requests and sleeps of
    [CRAWL_DELAY] seconds only, with at most [max_pages - 1] page requests,
    and the sleeps add up to at most [CRAWL_DELAY] seconds per page
    requested. *)
Theorem job_footprint st request :
  (req_max_pages request <= MAX_PAGES_LIMIT)%Z ->
  let result := generate_sitemap st request in
  let seed := urlparse (req_url request) in
  exists elapsed events,
    log result.1
    = (log st ++ RobotsFetch (scheme seed ++ "://" ++ netloc seed ++ "/robots.txt") elapsed
              :: events)%list
    /\ Forall (fun e => is_crawl_event e = true) events
    /\ (length (page_fetches events) <= Z.to_nat (req_max_pages request - 1))%nat
    /\ (slept events <= 1000 * CRAWL_DELAY * Z.of_nat (length (page_fetches events)))%Z.
Proof.
  intros Hlimit result seed. subst result seed.
  destruct (check_robots_txt_log st (req_url request)) as [elapsed Hlog].
  exists elapsed.
  destruct (generate_sitemap_run st request)
    as [(Hbig & _) | (_ & [[Hl _] | (_ & Hl & _)])]; [lia|rewrite Hl; clear Hl..].
  - exists []. rewrite Hlog. split; [done|]. split; [done|]. simpl.
    unfold CRAWL_DELAY. split; lia.
  - pose proof (crawl_of_fuel st request) as Hfuel.
    pose proof (get_internal_links_fuel_steps _ _ _ _ _ _ _ _ _ _ Hfuel) as Hsteps.
    pose proof (get_internal_links_fuel_fetches _ _ _ _ _ _ _ _ _ _ Hfuel) as Hcount.
    pose proof (get_internal_links_fuel_slept _ _ _ _ _ _ _ Hfuel) as Hslept.
    apply crawl_steps_events in Hsteps as (events & Hevents & Hall).
    cbn [fst snd] in *. exists events.
    rewrite Hevents, (crawl_start_log urlparse urlopen os_makedirs), Hlog, <- app_assoc.
    split; [done|]. split; [done|].
    rewrite Hevents in Hcount, Hslept.
    rewrite page_fetches_app in Hcount, Hslept. rewrite slept_app in Hslept.
    rewrite length_app in Hcount, Hslept. rewrite size_singleton in Hcount.
    split; lia.
Qed.

(** ** The robots check *)

(** X10. The delay [check_robots_txt] returns is never 0: it is the
    advertised crawl delay when robots.txt was read and advertises one
    that is not 0, and [CRAWL_DELAY] in every other case (an advertised
    delay of 0 included). *)
Theorem robots_delay_never_zero st url :
  let robots_url :=
    scheme (urlparse url) ++ "://" ++ netloc (urlparse url) ++ "/robots.txt" in
  let answer := (urlopen (world st) robots_url).2 in
  let delay := (check_robots_txt st url).2.2 in
  delay <> 0%Z
  /\ (forall allowance d, answer = Parsed allowance (Some d) -> d <> 0%Z -> delay = d)
  /\ ((forall allowance d, answer = Parsed allowance (Some d) -> d = 0%Z) ->
      delay = CRAWL_DELAY).
Proof.
  intros robots_url answer delay. subst robots_url answer delay.
  unfold Main.check_robots_txt. cbn zeta.
  destruct (urlopen _ _) as [[w elapsed] r]. cbn [snd].
  destruct r as [|code| |allowance [d|]]; cbn [RobotFileParser.read RobotFileParser.new].
  - repeat split; try done.
  - destruct ((code =? 401) || (code =? 403))%Z;
      [|destruct ((400 <=? code) && (code <? 500))%Z]; repeat split; done.
  - repeat split; try done.
  - cbn. destruct (Z.eqb_spec d 0) as [->|Hd].
    + repeat split; try done. intros allowance' d' [= _ <-] Hd'. done.
    + split; [done|]. split.
      * by intros allowance' d' [= _ <-] _.
      * intros Hzero. by specialize (Hzero allowance d eq_refl).
  - repeat split; try done.
Qed.

(** X11. [check_robots_txt] refuses the seed in exactly two situations:
    the server answers the request for robots.txt with 401, 403 or an
    error status outside 4xx, or robots.txt was read and its rules
    disallow the URL. *)
Theorem robots_refusal_iff st url :
  let robots_url :=
    scheme (urlparse url) ++ "://" ++ netloc (urlparse url) ++ "/robots.txt" in
  let answer := (urlopen (world st) robots_url).2 in
  (check_robots_txt st url).2.1 = false
  <-> (exists code, answer = HTTPError code
                    /\ (code = 401%Z \/ code = 403%Z \/ ~ (400 <= code < 500)%Z))
      \/ (exists allowance delay, answer = Parsed allowance delay /\ allowance url = false).
Proof.
  clear urljoin requests_get os_makedirs tree_write.
  intros robots_url answer. subst robots_url answer.
  unfold Main.check_robots_txt. cbn zeta.
  destruct (urlopen _ _) as [[w elapsed] r]. cbn [snd].
  destruct r as [|code| |allowance delay]; cbn [RobotFileParser.read RobotFileParser.new].
  - split; [done|]. intros [(code & [=] & _) | (a & d & [=] & _)].
  - destruct (Z.eqb_spec code 401) as [->|H401]; cbn [orb].
    { split; [|done]. intros _. left. exists 401%Z. tauto. }
    destruct (Z.eqb_spec code 403) as [->|H403].
    { split; [|done]. intros _. left. exists 403%Z. tauto. }
    destruct (Z.leb_spec 400 code); destruct (Z.ltb_spec code 500); cbn.
    + split; [done|]. intros [(c & [= <-] & Hc) | (a & d & [=] & _)]. lia.
    + split; [|done]. intros _. left. exists code. split; [done|]. right. right. lia.
    + split; [|done]. intros _. left. exists code. split; [done|]. right. right. lia.
    + split; [|done]. intros _. left. exists code. split; [done|]. right. right. lia.
  - split; [done|]. intros [(code & [=] & _) | (a & d & [=] & _)].
  - cbn. split.
    + intros Hrefused. right. eauto.
    + intros [(code & [=] & _) | (a & d & [= <- _] & Hno)]. done.
Qed.

(** ** The name of the file written *)

Lemma replace_char_length a b s :
  String.length (Str.replace_char a b s) = String.length s.
Proof. induction s as [|c s IH]; simpl; [done|]. by rewrite IH. Qed.

Lemma replace_char_get a b s (i : nat) :
  String.get i (Str.replace_char a b s)
  = (fun c => if Ascii.eqb c a then b else c) <$> String.get i s.
Proof.
  revert i. induction s as [|c s IH]; intros [|i]; simpl; by try apply IH.
Qed.

(** X12. The file of a successful job is [sitemaps/sitemap_<name>.xml],
    where [<name>] is the [netloc] of the seed with every [.] turned into
    [_] and every other character (the [:] before a port, say) left as
    it is; so the name holds no [.]. *)
Theorem output_file_shape st request file_path :
  file_path_of (generate_sitemap st request).2 = Some file_path ->
  let host := netloc (urlparse (req_url request)) in
  exists name,
    file_path = "sitemaps/sitemap_" ++ name ++ ".xml"
    /\ String.length name = String.length host
    /\ (forall i : nat,
          String.get i name
          = (fun c => if Ascii.eqb c "." then "_"%char else c) <$> String.get i host)
    /\ (forall i : nat, String.get i name <> Some "."%char).
Proof.
  intros Hfile host. subst host.
  destruct (generate_sitemap st request)
    as [st' [status detail| |file doc links n delay]] eqn:Hrun; simpl in Hfile; [done..|].
  injection Hfile as ->.
  exists (Str.replace_char "." "_" (netloc (urlparse (req_url request)))).
  split; [|split; [apply replace_char_length|split; [apply replace_char_get|]]].
  - by apply (generate_sitemap_success urlparse urljoin requests_get urlopen os_makedirs
                tree_write) in Hrun as (_ & _ & _ & _ & _ & _ & ->).
  - intros i. rewrite replace_char_get.
    destruct (String.get i (netloc (urlparse (req_url request)))) as [c|]; [|done].
    simpl. destruct (Ascii.eqb_spec c "."); [done|congruence].
Qed.

(** ** An anchor that cannot be resolved *)

Lemma for_links_stops_at_error recurse url base_domain pre link post :
  urljoin url link = None ->
  forall st visited,
    for_links recurse url base_domain (pre ++ link :: post) st visited
    = for_links recurse url base_domain pre st visited.
Proof.
  intros Hraise. induction pre as [|l pre IH]; intros st visited; simpl.
  - by rewrite Hraise.
  - destruct (urljoin url l) as [href|]; [|done].
    destruct (is_new_internal_page base_domain visited href); [|apply IH].
    destruct (recurse st href ({[href]} ∪ visited)) as [[st1 visited1]|]; [apply IH|done].
Qed.

(** X13. When [urljoin] raises on an anchor of a page, the anchors after
    it on that page are not looked at: the traversal of the page is the
    traversal of the anchors before the failing one. *)
Theorem unresolved_anchor_hides_rest
    st url base_domain visited max_pages status_code content_type pre link post :
  (Z.of_nat (size visited) < max_pages)%Z ->
  (fetch_page st url).2 = HTTPResponse status_code content_type (pre ++ link :: post) ->
  raises_for_status status_code = false ->
  is_html content_type = true ->
  urljoin url link = None ->
  get_internal_links st url base_domain visited max_pages
  = default ((fetch_page st url).1, visited)
      (for_links
         (fun st href visited =>
            Some (get_internal_links st href base_domain visited max_pages))
         url base_domain pre (sleep (fetch_page st url).1 CRAWL_DELAY) visited).
Proof.
  intros Hroom Hpage Hstatus Hhtml Hraise. rewrite get_internal_links_unfold.
  destruct (Z.geb_spec (Z.of_nat (size visited)) max_pages) as [|_]; [lia|].
  destruct (fetch_page st url) as [st1 response]. cbn [fst snd] in *. subst response.
  rewrite Hstatus, Hhtml. cbn [negb].
  by rewrite for_links_stops_at_error.
Qed.

(** ** Completeness below the limit *)

Section StaticSite.

(** The site answers every request for a page the same way, and every
    anchor of its pages can be resolved. *)
Variable site : string -> Response.
Hypothesis site_static : forall w url, (requests_get w url).2 = site url.
Hypothesis site_resolvable :
  forall page status_code content_type hrefs,
    site page = HTTPResponse status_code content_type hrefs ->
    Forall (fun link => is_Some (urljoin page link)) hrefs.

Lemma closed_page_mono base_domain (links links' : gset string) page :
  links ⊆ links' ->
  closed_page site base_domain links page -> closed_page site base_domain links' page.
Proof.
  unfold Main.closed_page. intros Hsub Hclosed.
  destruct (site page) as [|status_code content_type hrefs]; [done|].
  intros Hstatus Hhtml link href Hlink Hjoin Hhost Hscheme Hext.
  apply Hsub. by eapply Hclosed.
Qed.

Lemma for_links_closed recurse url base_domain max_pages links :
  (forall st u visited c,
      recurse st u visited = Some c ->
      (size c.2 < max_pages)%nat ->
      visited ⊆ c.2
      /\ closed_page site base_domain c.2 u
      /\ forall x, x ∈ c.2 -> x ∉ visited -> closed_page site base_domain c.2 x) ->
  forall st visited c,
    for_links recurse url base_domain links st visited = Some c ->
    (size c.2 < max_pages)%nat ->
    visited ⊆ c.2
    /\ forall x, x ∈ c.2 -> x ∉ visited -> closed_page site base_domain c.2 x.
Proof.
  intros Hrec. induction links as [|link links IH]; intros st visited c; simpl.
  - intros [= <-] _. split; [done|]. intros x Hx Hnot. done.
  - destruct (urljoin url link) as [href|];
      [|intros [= <-] _; split; [done|]; intros x Hx Hnot; done].
    destruct (is_new_internal_page base_domain visited href); [|apply IH].
    destruct (recurse st href ({[href]} ∪ visited)) as [[st1 visited1]|] eqn:Hcall;
      [|done].
    intros Hrest Hsize. destruct (IH _ _ _ Hrest Hsize) as [Hsub Hlater].
    apply Hrec in Hcall as (Hsub1 & Hhref & Hinner).
    2:{ cbn [snd]. apply subseteq_size in Hsub. lia. }
    cbn [snd] in *. split; [set_solver|]. intros x Hx Hnot.
    destruct (decide (x ∈ visited1)) as [Hx1|Hx1]; [|by apply Hlater].
    apply (closed_page_mono _ visited1); [done|].
    destruct (decide (x = href)) as [->|Hne]; [done|].
    apply Hinner; [done|]. set_solver.
Qed.

Lemma get_internal_links_fuel_closed fuel base_domain max_pages :
  forall st url visited c,
    get_internal_links_fuel fuel st url base_domain visited (Z.of_nat max_pages)
    = Some c ->
    (size c.2 < max_pages)%nat ->
    visited ⊆ c.2
    /\ closed_page site base_domain c.2 url
    /\ forall x, x ∈ c.2 -> x ∉ visited -> closed_page site base_domain c.2 x.
Proof.
  induction fuel as [|fuel IH]; intros st url visited c; simpl; [done|].
  destruct (Z.geb_spec (Z.of_nat (size visited)) (Z.of_nat max_pages)) as [Hfull|Hroom].
  { intros [= <-] Hsize. cbn [snd] in Hsize. lia. }
  pose proof (site_static (world st) url) as Hsite.
  unfold Main.fetch_page.
  destruct (requests_get (world st) url) as [[w elapsed] response].
  cbn [snd] in Hsite. subst response. cbn beta iota zeta.
  assert (forall st' : Sim,
            (site url = RequestException
             \/ exists status_code content_type hrefs,
                  site url = HTTPResponse status_code content_type hrefs
                  /\ (raises_for_status status_code = true \/ is_html content_type = false)) ->
            Some (st', visited) = Some c ->
            visited ⊆ c.2
            /\ closed_page site base_domain c.2 url
            /\ forall x, x ∈ c.2 -> x ∉ visited -> closed_page site base_domain c.2 x)
    as Hleaf.
  { intros st' Hbad [= <-]. cbn [snd]. split; [done|]. split; [|done].
    unfold Main.closed_page.
    destruct Hbad as [-> | (status_code & content_type & hrefs & -> & Hbad)]; [done|].
    intros Hstatus Hhtml. destruct Hbad; congruence. }
  destruct (site url) as [|status_code content_type hrefs] eqn:Hpage.
  { intros Hrun _. eapply Hleaf; [by left|exact Hrun]. }
  destruct (raises_for_status status_code) eqn:Hstatus.
  { intros Hrun _. eapply Hleaf; [|exact Hrun]. right. eauto 10. }
  destruct (is_html content_type) eqn:Hhtml; cbn [negb].
  2:{ intros Hrun _. eapply Hleaf; [|exact Hrun]. right. eauto 10. }
  intros Hrun Hsize.
  pose proof Hrun as Hloop.
  apply (for_links_closed _ _ _ max_pages) in Hloop as [Hsub Hadded]; [|exact IH|done].
  split; [exact Hsub|]. split; [|exact Hadded].
  unfold Main.closed_page. rewrite Hpage.
  intros _ _ link href Hlink Hjoin Hhost Hscheme Hext.
  apply in_split in Hlink as (pre & post & ->).
  eapply (for_links_discovers urlparse urljoin) in Hrun as [_ Hin];
    [exact Hin| |..]; try eassumption.
  - intros st2 u visited2 c2 Hcall.
    apply (get_internal_links_fuel_steps urlparse urljoin requests_get) in Hcall.
    by apply (crawl_steps_grow urlparse urljoin requests_get) in Hcall.
  - apply site_resolvable in Hpage. apply Forall_app in Hpage. tauto.
Qed.

(** X14. The crawl is complete below the limit. On a site that answers
    every request for a page the same way and whose anchors all resolve,
    a job that ends with fewer than [max_pages] links has found
    everything: for every listed page that is HTML with a good status,
    every anchor that resolves to a URL of the seed's host, with scheme
    [http] or [https] and without a skipped extension, is listed too. *)
Theorem crawl_complete_below_limit st request :
  let result := generate_sitemap st request in
  (Z.of_nat (size (links_of result.2)) < req_max_pages request)%Z ->
  forall page, page ∈ links_of result.2 ->
    closed_page site (netloc (urlparse (req_url request))) (links_of result.2) page.
Proof.
  intros result Hsize page Hpage. subst result.
  pose proof (links_of_crawl st request page Hpage) as Hlinks. cbn zeta in Hlinks.
  rewrite Hlinks in Hsize, Hpage |- *. clear Hlinks.
  pose proof (crawl_of_fuel st request) as Hfuel.
  revert Hfuel Hsize Hpage. generalize (crawl_of st request). intros c Hfuel Hsize Hpage.
  rewrite <- (Z2Nat.id (req_max_pages request)) in Hfuel by lia.
  apply get_internal_links_fuel_closed in Hfuel as (_ & Hseed & Hadded);
    cbn [snd] in *; [|lia].
  destruct (decide (page = req_url request)) as [->|Hne]; [done|].
  apply Hadded; [done|]. by apply not_elem_of_singleton.
Qed.

End StaticSite.

(** ** How far the set can grow *)

Section SiteSize.

(** The site answers every request for a page the same way. *)
Variable site : string -> Response.
Hypothesis site_static : forall w url, (requests_get w url).2 = site url.

Lemma fetched_urls_length (events : list Event) :
  length (fetched_urls events) = length (page_fetches events).
Proof.
  unfold fetched_urls, page_fetches.
  induction events as [|e events IH]; [done|].
  destruct e; [rewrite filter_cons_False by done|rewrite filter_cons_True by done
              |rewrite filter_cons_False by done]; simpl; by rewrite IH.
Qed.

Lemma sum_list_with_bound {A} (f : A -> nat) (k : nat) (l : list A) :
  (forall x, f x <= k)%nat -> (sum_list_with f l <= k * length l)%nat.
Proof.
  intros Hk. induction l as [|x l IH]; simpl; [lia|]. specialize (Hk x). nia.
Qed.

Lemma for_links_anchors recurse url base_domain links :
  (forall st u visited c,
      recurse st u visited = Some c ->
      (size c.2 + sum_list_with (fun u => anchors_of (site u)) (fetched_urls (log st))
       <= size visited
          + sum_list_with (fun u => anchors_of (site u)) (fetched_urls (log c.1)))%nat) ->
  forall st visited c,
    for_links recurse url base_domain links st visited = Some c ->
    (size c.2 + sum_list_with (fun u => anchors_of (site u)) (fetched_urls (log st))
     <= size visited
        + sum_list_with (fun u => anchors_of (site u)) (fetched_urls (log c.1))
        + length links)%nat.
Proof.
  intros Hrec. induction links as [|link links IH]; intros st visited c; simpl.
  - intros [= <-]. simpl. lia.
  - destruct (urljoin url link) as [href|]; [|intros [= <-]; simpl; lia].
    destruct (is_new_internal_page base_domain visited href) eqn:Hnew.
    2:{ intros Hrest. apply IH in Hrest. lia. }
    apply (is_new_internal_page_inv urlparse urljoin) in Hnew as (_ & _ & Hfresh & _).
    assert (size ({[href]} ∪ visited) = S (size visited)) as Hone.
    { rewrite size_union by set_solver. by rewrite size_singleton. }
    destruct (recurse st href ({[href]} ∪ visited)) as [[st1 visited1]|] eqn:Hcall;
      [|done].
    intros Hrest. apply Hrec in Hcall. apply IH in Hrest. cbn [fst snd] in *. lia.
Qed.

Lemma get_internal_links_fuel_anchors fuel base_domain max_pages :
  forall st url visited c,
    get_internal_links_fuel fuel st url base_domain visited max_pages = Some c ->
    (size c.2 + sum_list_with (fun u => anchors_of (site u)) (fetched_urls (log st))
     <= size visited
        + sum_list_with (fun u => anchors_of (site u)) (fetched_urls (log c.1)))%nat.
Proof.
  induction fuel as [|fuel IH]; intros st url visited c; simpl; [done|].
  destruct (Z.of_nat (size visited) >=? max_pages)%Z; [intros [= <-]; simpl; lia|].
  pose proof (site_static (world st) url) as Hsite.
  pose proof (fetched_urls_fetch_page st url) as Hlog.
  unfold Main.fetch_page in *.
  destruct (requests_get (world st) url) as [[w elapsed] response].
  cbn [fst snd] in Hsite, Hlog. cbn beta iota zeta.
  destruct response as [|status_code content_type hrefs].
  { intros [= <-]. cbn [fst snd]. rewrite Hlog, sum_list_with_app. lia. }
  destruct (raises_for_status status_code).
  { intros [= <-]. cbn [fst snd]. rewrite Hlog, sum_list_with_app. lia. }
  destruct (is_html content_type); cbn [negb].
  2:{ intros [= <-]. cbn [fst snd]. rewrite Hlog, sum_list_with_app. lia. }
  intros Hloop. apply for_links_anchors in Hloop; [|exact IH].
  rewrite fetched_urls_sleep, Hlog, sum_list_with_app in Hloop.
  simpl in Hloop. rewrite <- Hsite in Hloop. simpl in Hloop. lia.
Qed.

(** X15. How far the result set can pass the page limit: on a site that
    answers every request for a page the same way and whose pages have at
    most [k] anchors each, a job lists at most [1 + k * (max_pages - 1)]
    URLs. *)
Theorem result_size_bound st request (k : nat) :
  (forall page, anchors_of (site page) <= k)%nat ->
  let result := generate_sitemap st request in
  (size (links_of result.2) <= 1 + k * Z.to_nat (req_max_pages request - 1))%nat.
Proof.
  intros Hk result. subst result.
  destruct (generate_sitemap_run st request)
    as [(_ & _ & Hr) | (_ & [[_ Hr] | (_ & _ & [Hr | [_ Hr]])])];
    [apply links_of_failed in Hr; rewrite Hr, size_empty; apply Nat.le_0_l..|].
  rewrite Hr. clear Hr.
  pose proof (crawl_of_fuel st request) as Hfuel.
  revert Hfuel. generalize (crawl_of st request). intros c Hfuel.
  pose proof (get_internal_links_fuel_steps _ _ _ _ _ _ _ _ _ _ Hfuel) as Hsteps.
  pose proof (get_internal_links_fuel_fetches _ _ _ _ _ _ _ _ _ _ Hfuel) as Hcount.
  pose proof (get_internal_links_fuel_anchors _ _ _ _ _ _ _ Hfuel) as Hsum.
  apply crawl_steps_events in Hsteps as (events & Hevents & _).
  cbn [fst snd] in *. rewrite Hevents in Hcount, Hsum.
  rewrite page_fetches_app, length_app in Hcount.
  rewrite fetched_urls_app, sum_list_with_app in Hsum.
  rewrite size_singleton in Hcount, Hsum.
  assert (sum_list_with (fun u => anchors_of (site u)) (fetched_urls events)
          <= k * length (fetched_urls events))%nat as Hbound.
  { apply sum_list_with_bound. intros u. apply Hk. }
  rewrite fetched_urls_length in Hbound. nia.
Qed.

End SiteSize.

End CrawlerMore.
(** ** The claims on the small web *)

Module Runs.
Import Scenario.

(** C7 at a site whose pages link back to each other. *)
Lemma get_internal_links_terminates_witness :
  exists result,
    get_internal_links_fuel urlparse urljoin (requests_get two_links)
                            11 start seed "example.test" {[seed]} 10 = Some result
    /\ result = get_internal_links urlparse urljoin (requests_get two_links)
                                   start seed "example.test" {[seed]} 10
    /\ rtc (crawl_step urlparse (requests_get two_links) "example.test")
           (start, {[seed]}) result
    /\ (length (page_fetches (log result.1))
        <= length (page_fetches (log start))
           + Z.to_nat (10 - Z.of_nat (size ({[seed]} : gset string))))%nat.
Proof.
  apply (get_internal_links_terminates
           urlparse urljoin (requests_get two_links) 11 start seed "example.test" {[seed]} 10).
  vm_compute. lia.
Defined.

(** C2 at a seed that links to another host. *)
Lemma result_urls_same_host_witness :
  netloc (urlparse "https://example.test/b") = netloc (urlparse seed).
Proof.
  apply (result_urls_same_host urlparse urljoin (requests_get example_site)
           (urlopen no_robots) os_makedirs tree_write start (mkRequest seed 100)
           "https://example.test/b").
  left. vm_compute. reflexivity.
Defined.

(** C1. With [max_pages = 2] and a seed page that links to two pages of
    its own host, the result set has three members. *)
Theorem page_limit_exceeded :
  let request := mkRequest seed 2 in
  let result := run two_links no_robots request in
  elements (links_of result.2)
  = ["https://example.test/a"; "https://example.test/b"; "https://example.test/"]
  /\ (Z.of_nat (size (links_of result.2)) > req_max_pages request)%Z.
Proof. vm_compute. split; reflexivity. Qed.

(** C3. The robots policy advertises a delay of 10 seconds, and the
    answer reports it as the delay used; yet no two consecutive
    requests to the host start 10 000 ms apart: the seed is requested
    30 ms after robots.txt, a page 2040 ms after the page before it when
    that one was HTML, and 40 ms after it when it was not or failed. *)
Theorem crawl_delay_not_enforced :
  let request := mkRequest seed 100 in
  let result := run example_site (allow_all_robots (Some 10%Z)) request in
  crawl_delay_used_of result.2 = Some 10%Z
  /\ log result.1
     = [RobotsFetch "https://example.test/robots.txt" 30;
        PageFetch "https://example.test/" 40; Sleep 2000;
        PageFetch "https://example.test/b" 40; Sleep 2000;
        PageFetch "https://example.test/doc.pdf?view=1" 40;
        PageFetch "https://example.test/gone" 40;
        PageFetch "https://example.test/err" 40;
        PageFetch "https://example.test/feed" 40]
  /\ gaps (fetch_starts 0 (log result.1)) = [30; 2040; 2040; 40; 40; 40]%Z
  /\ Forall (fun gap => (gap < 1000 * 10)%Z) (gaps (fetch_starts 0 (log result.1))).
Proof.
  vm_compute. repeat split; try reflexivity.
  repeat constructor.
Qed.

(** C4 as stated fails: the seed page links to [/doc.pdf?view=1], whose
    path is [/doc.pdf], and the URL is in the result set. *)
Lemma pdf_path_in_result :
  let href := "https://example.test/doc.pdf?view=1" in
  href ∈ links_of (run example_site no_robots (mkRequest seed 100)).2
  /\ path (urlparse href) = "/doc.pdf"
  /\ Str.endswith (path (urlparse href)) ".pdf" = true
  /\ In ".pdf" skipped_extensions.
Proof. vm_compute. repeat split; try reflexivity. left; reflexivity. Qed.

(** C4, amended, at the link to [/b]. *)
Lemma skipped_extension_only_seed_witness :
  Str.endswith "https://example.test/b" ".pdf" = false.
Proof.
  apply (skipped_extension_only_seed urlparse urljoin (requests_get example_site)
           (urlopen no_robots) os_makedirs tree_write start (mkRequest seed 100)
           "https://example.test/b" ".pdf").
  - vm_compute. reflexivity.
  - discriminate.
  - left; reflexivity.
Defined.

(** C5 at a policy that disallows everything, for requests for 500 and
    for 501 pages. *)
Lemma robots_disallow_rejects_witness :
  (let result := run example_site disallow_all_robots (mkRequest seed 500) in
   page_fetches (log result.1) = []
   /\ result.2 = HTTPException 403
                   "This website does not allow crawling according to robots.txt")
  /\ run example_site disallow_all_robots (mkRequest seed 501)
     = (start, HTTPException 400 "max_pages cannot exceed 500").
Proof.
  split.
  - destruct (robots_disallow_rejects urlparse urljoin (requests_get example_site)
                (urlopen disallow_all_robots) os_makedirs tree_write start
                (mkRequest seed 500))
      as (Hpages & _ & Hforbidden & _).
    + vm_compute. reflexivity.
    + destruct Hforbidden as [Hresult _].
      * vm_compute. discriminate.
      * split; [exact Hpages|]. unfold run. rewrite Hresult. reflexivity.
  - apply (robots_disallow_rejects urlparse urljoin (requests_get example_site)
             (urlopen disallow_all_robots) os_makedirs tree_write start
             (mkRequest seed 501)).
    + vm_compute. reflexivity.
    + vm_compute. reflexivity.
Defined.

(** C8 as stated fails: a request for 0 pages is accepted and answered
    with a sitemap of one URL. *)
Lemma max_pages_zero_accepted :
  let request := mkRequest seed 0 in
  ~ (1 <= req_max_pages request)%Z
  /\ exists file_path document,
       (run example_site no_robots request).2
       = Success file_path document {[seed]} 1 CRAWL_DELAY.
Proof.
  split; [vm_compute; tauto|].
  do 2 eexists. vm_compute. reflexivity.
Qed.

(** C8, amended, at requests for 501, 500 and 0 pages. *)
Lemma max_pages_validation_witness :
  run example_site no_robots (mkRequest seed 501)
  = (start, HTTPException 400 "max_pages cannot exceed 500")
  /\ (run example_site no_robots (mkRequest seed 500)).2
     <> HTTPException 400 "max_pages cannot exceed 500"
  /\ page_fetches (log (run example_site no_robots (mkRequest seed 0)).1) = []
  /\ links_of (run example_site no_robots (mkRequest seed 0)).2 = {[seed]}.
Proof.
  split; [|split].
  - apply (max_pages_validation urlparse urljoin (requests_get example_site)
             (urlopen no_robots) os_makedirs tree_write start (mkRequest seed 501)).
    vm_compute. reflexivity.
  - apply (max_pages_validation urlparse urljoin (requests_get example_site)
             (urlopen no_robots) os_makedirs tree_write start (mkRequest seed 500)).
    vm_compute. discriminate.
  - destruct (max_pages_validation urlparse urljoin (requests_get example_site)
                (urlopen no_robots) os_makedirs tree_write start (mkRequest seed 0))
      as (_ & _ & Hlow).
    destruct Hlow as (_ & Hpages & Hfiles & Hsitemap & _).
    + vm_compute. reflexivity.
    + vm_compute. reflexivity.
    + split; [exact Hpages|]. unfold run. rewrite Hsitemap; [reflexivity|].
      apply (proj2 Hfiles). split; vm_compute; reflexivity.
Defined.



(** C10 at the link [/gone] of the seed page, and at the link [/deep] of
    the page [/a] that the seed links to; neither answers. *)
Lemma discovered_links_are_kept_witness :
  (lookup_page example_site "https://example.test/gone" = RequestException
   /\ "https://example.test/gone"
      ∈ (get_internal_links urlparse urljoin (requests_get example_site)
                            start seed "example.test" {[seed]} 100).2)
  /\ (lookup_page deep_site "https://example.test/deep" = RequestException
      /\ "https://example.test/deep"
         ∈ (get_internal_links urlparse urljoin (requests_get deep_site)
                               start seed "example.test" {[seed]} 100).2).
Proof.
  split; (split; [reflexivity|]).
  - apply (proj1 (proj2 (proj2 (proj2 (discovered_links_are_kept urlparse urljoin
                         (requests_get example_site) (urlopen no_robots)
                         os_makedirs tree_write
                         start seed "example.test" {[seed]} 100))))
             (start, seed, {[seed]}) (or_introl eq_refl)
             200%Z (Some "text/html; charset=utf-8")
             ["/b"; "https://other.test/c"; "/doc.pdf"; "/doc.pdf?view=1"]
             "/gone" ["/err"; "/feed"] "https://example.test/gone").
    + vm_compute. reflexivity.
    + reflexivity.
    + reflexivity.
    + reflexivity.
    + repeat constructor; vm_compute; eauto.
    + reflexivity.
    + reflexivity.
    + right. reflexivity.
    + reflexivity.
  - assert (In (mkSim tt [PageFetch seed 40; Sleep 2000], "https://example.test/a",
                {["https://example.test/a"]} ∪ ({[seed]} : gset string))
               ((start, seed, {[seed]})
                :: recursive_calls urlparse urljoin (requests_get deep_site)
                                   start seed "example.test" {[seed]} 100)) as Hcall.
    { apply (nth_error_In _ 1). vm_compute. reflexivity. }
    apply (proj1 (proj2 (proj2 (proj2 (discovered_links_are_kept urlparse urljoin
                         (requests_get deep_site) (urlopen no_robots)
                         os_makedirs tree_write
                         start seed "example.test" {[seed]} 100))))
             _ Hcall
             200%Z (Some "text/html; charset=utf-8")
             ["/"] "/deep" [] "https://example.test/deep").
    + vm_compute. reflexivity.
    + reflexivity.
    + reflexivity.
    + reflexivity.
    + repeat constructor; vm_compute; eauto.
    + reflexivity.
    + reflexivity.
    + right. reflexivity.
    + reflexivity.
Defined.

End Runs.

(** ** The further properties on the small web *)

Module MoreRuns.
Import Scenario.

(** X1 at a job that is answered with a sitemap, and at one whose file
    name is too long to be written. *)
Lemma job_answer_within_limit_witness :
  (let request := mkRequest seed 100 in
   let crawl := crawl_of urlparse urljoin (requests_get example_site) (urlopen no_robots)
                         os_makedirs start request in
   exists document url_count,
     (run example_site no_robots request).2
     = Success (output_file_of urlparse seed) document crawl.2 url_count
               (check_robots_txt urlparse (urlopen no_robots) start seed).2.2
     /\ seed ∈ crawl.2
     /\ document = build_urlset crawl.2
     /\ url_count = Z.of_nat (length (children_of document))
     /\ url_count = Z.of_nat (size crawl.2)
     /\ (1 <= url_count)%Z)
  /\ (run dead_site no_robots (mkRequest long_seed 100)).2 = InternalServerError.
Proof.
  split.
  - pose proof (job_answer_within_limit urlparse urljoin (requests_get example_site)
                  (urlopen no_robots) os_makedirs tree_write start (mkRequest seed 100))
      as Hjob.
    cbn zeta in Hjob. destruct Hjob as (_ & _ & Hfiles & Hsitemap).
    + vm_compute. discriminate.
    + apply Hsitemap, (proj1 Hfiles). split; [|split]; vm_compute; reflexivity.
  - pose proof (job_answer_within_limit urlparse urljoin (requests_get dead_site)
                  (urlopen no_robots) os_makedirs tree_write start
                  (mkRequest long_seed 100)) as Hjob.
    cbn zeta in Hjob. destruct Hjob as (_ & Hfiles & _).
    + vm_compute. discriminate.
    + apply (proj1 Hfiles). split; [|right]; vm_compute; reflexivity.
Defined.

Lemma result_urls_http_witness :
  scheme (urlparse "https://example.test/b") = "http"
  \/ scheme (urlparse "https://example.test/b") = "https".
Proof.
  apply (result_urls_http urlparse urljoin (requests_get example_site)
           (urlopen no_robots) os_makedirs tree_write start (mkRequest seed 100) "https://example.test/b").
  - vm_compute. reflexivity.
  - discriminate.
Defined.

Lemma unreadable_page_ends_branch_witness :
  get_internal_links urlparse urljoin (requests_get dead_site)
                     start seed "example.test" {[seed]} 10
  = (if (Z.of_nat (size ({[seed]} : gset string)) >=? 10)%Z then start
     else (fetch_page (requests_get dead_site) start seed).1,
     {[seed]}).
Proof.
  apply (unreadable_page_ends_branch urlparse urljoin (requests_get dead_site)
           start seed "example.test" {[seed]} 10).
  left. reflexivity.
Defined.

(** X4 on a host where nothing answers, with a file name that can be
    written and with one that is too long. *)
Lemma unreadable_seed_lists_seed_alone_witness :
  (run dead_site no_robots (mkRequest seed 10)).2
  = Success "sitemaps/sitemap_example_test.xml" (build_urlset {[seed]}) {[seed]} 1
            CRAWL_DELAY
  /\ (run dead_site no_robots (mkRequest long_seed 10)).2 = InternalServerError.
Proof.
  split; unfold run.
  - pose proof (unreadable_seed_lists_seed_alone urlparse urljoin (requests_get dead_site)
                  (urlopen no_robots) os_makedirs tree_write start (mkRequest seed 10))
      as Hjob.
    cbn zeta in Hjob. destruct Hjob as [_ ->].
    + vm_compute. discriminate.
    + reflexivity.
    + reflexivity.
    + left. reflexivity.
    + reflexivity.
  - pose proof (unreadable_seed_lists_seed_alone urlparse urljoin (requests_get dead_site)
                  (urlopen no_robots) os_makedirs tree_write start
                  (mkRequest long_seed 10)) as Hjob.
    cbn zeta in Hjob. destruct Hjob as [_ ->].
    + vm_compute. discriminate.
    + reflexivity.
    + reflexivity.
    + left. vm_compute. reflexivity.
    + vm_compute. reflexivity.
Defined.

(** X5 at requests for one page, with a file name that can be written and
    with one that is too long. *)
Lemma single_page_limit_witness :
  (run example_site no_robots (mkRequest seed 1)).2
  = Success "sitemaps/sitemap_example_test.xml" (build_urlset {[seed]}) {[seed]} 1
            CRAWL_DELAY
  /\ page_fetches (log (run example_site no_robots (mkRequest seed 1)).1) = []
  /\ (run example_site no_robots (mkRequest long_seed 1)).2 = InternalServerError.
Proof.
  split; [|split]; unfold run.
  - pose proof (single_page_limit urlparse urljoin (requests_get example_site)
                  (urlopen no_robots) os_makedirs tree_write start (mkRequest seed 1))
      as Hjob.
    cbn zeta in Hjob. destruct Hjob as (_ & _ & ->).
    + vm_compute. discriminate.
    + reflexivity.
    + reflexivity.
    + reflexivity.
  - pose proof (single_page_limit urlparse urljoin (requests_get example_site)
                  (urlopen no_robots) os_makedirs tree_write start (mkRequest seed 1))
      as Hjob.
    cbn zeta in Hjob. destruct Hjob as (_ & -> & _).
    + vm_compute. discriminate.
    + reflexivity.
    + reflexivity.
    + reflexivity.
  - pose proof (single_page_limit urlparse urljoin (requests_get example_site)
                  (urlopen no_robots) os_makedirs tree_write start (mkRequest long_seed 1))
      as Hjob.
    cbn zeta in Hjob. destruct Hjob as (_ & _ & ->).
    + vm_compute. discriminate.
    + reflexivity.
    + reflexivity.
    + vm_compute. reflexivity.
Defined.

(** X6 at the page [/gone], which is requested and does not answer. *)
Lemma pages_requested_once_witness :
  NoDup (fetched_urls (log (run example_site no_robots (mkRequest seed 100)).1))
  /\ In "https://example.test/gone"
        (sitemap_locs (run example_site no_robots (mkRequest seed 100)).2).
Proof.
  unfold run.
  pose proof (pages_requested_once urlparse urljoin (requests_get example_site)
                (urlopen no_robots) os_makedirs tree_write start (mkRequest seed 100)
                eq_refl) as Hjob.
  cbn zeta in Hjob. destruct Hjob as [Hnodup Hlisted].
  split; [exact Hnodup|].
  destruct (Hlisted "https://example.test/gone") as [_ Hsitemap].
  - vm_compute. do 3 right. left.
  - apply Hsitemap. vm_compute. reflexivity.
Defined.

(** When [tree.write] raises, the pages that were requested are listed
    nowhere: on the host of 248 characters the seed is requested, and the
    answer is the 500 one. *)
Lemma requested_page_unlisted_after_failure :
  let result := run dead_site no_robots (mkRequest long_seed 10) in
  fetched_urls (log result.1) = [long_seed]
  /\ result.2 = InternalServerError
  /\ sitemap_locs result.2 = [].
Proof. vm_compute. split; [reflexivity|]. split; reflexivity. Qed.

Lemma requested_urls_on_seed_host_witness :
  netloc (urlparse "https://example.test/gone") = netloc (urlparse seed).
Proof.
  apply (requested_urls_on_seed_host urlparse urljoin (requests_get example_site)
           (urlopen no_robots) os_makedirs tree_write start (mkRequest seed 100) eq_refl
           (PageFetch "https://example.test/gone" 40)).
  vm_compute. do 6 right. left.
Defined.

Lemma links_come_from_pages_witness :
  "https://example.test/b" = seed
  \/ exists page,
       page ∈ links_of (run example_site no_robots (mkRequest seed 100)).2
       /\ linked_from urljoin (requests_get example_site) page "https://example.test/b".
Proof.
  apply (links_come_from_pages urlparse urljoin (requests_get example_site)
           (urlopen no_robots) os_makedirs tree_write start (mkRequest seed 100) "https://example.test/b").
  vm_compute. reflexivity.
Defined.

Lemma job_footprint_witness :
  exists elapsed events,
    log (run example_site no_robots (mkRequest seed 100)).1
    = (log start ++ RobotsFetch "https://example.test/robots.txt" elapsed :: events)%list
    /\ Forall (fun e => is_crawl_event e = true) events
    /\ (length (page_fetches events) <= Z.to_nat (100 - 1))%nat
    /\ (slept events <= 1000 * CRAWL_DELAY * Z.of_nat (length (page_fetches events)))%Z.
Proof.
  apply (job_footprint urlparse urljoin (requests_get example_site)
           (urlopen no_robots) os_makedirs tree_write start (mkRequest seed 100)).
  vm_compute. discriminate.
Defined.

Lemma robots_delay_never_zero_witness :
  (check_robots_txt urlparse (urlopen (allow_all_robots (Some 0%Z))) start seed).2.2
  = CRAWL_DELAY
  /\ (check_robots_txt urlparse (urlopen (allow_all_robots (Some 10%Z))) start seed).2.2
     = 10%Z.
Proof.
  split.
  - apply (robots_delay_never_zero urlparse (urlopen (allow_all_robots (Some 0%Z)))
             start seed).
    intros allowance d [= _ <-]. reflexivity.
  - apply (proj1 (proj2 (robots_delay_never_zero urlparse
                           (urlopen (allow_all_robots (Some 10%Z))) start seed))
             (fun _ => true)).
    + reflexivity.
    + discriminate.
Defined.

Lemma output_file_shape_witness :
  exists name,
    "sitemaps/sitemap_example_test.xml" = "sitemaps/sitemap_" ++ name ++ ".xml"
    /\ String.length name = String.length (netloc (urlparse seed))
    /\ (forall i : nat,
          String.get i name
          = (fun c => if Ascii.eqb c "." then "_"%char else c)
              <$> String.get i (netloc (urlparse seed)))
    /\ (forall i : nat, String.get i name <> Some "."%char).
Proof.
  apply (output_file_shape urlparse urljoin (requests_get example_site)
           (urlopen no_robots) os_makedirs tree_write start (mkRequest seed 100)).
  vm_compute. reflexivity.
Defined.

Lemma unresolved_anchor_hides_rest_witness :
  get_internal_links urlparse urljoin (requests_get broken_link_site)
                     start seed "example.test" {[seed]} 10
  = default ((fetch_page (requests_get broken_link_site) start seed).1, {[seed]})
      (for_links urlparse urljoin
         (fun st href visited =>
            Some (get_internal_links urlparse urljoin (requests_get broken_link_site)
                                     st href "example.test" visited 10))
         seed "example.test" ["/a"; "mailto:x@example.test"]
         (sleep (fetch_page (requests_get broken_link_site) start seed).1 CRAWL_DELAY)
         {[seed]}).
Proof.
  apply (unresolved_anchor_hides_rest urlparse urljoin (requests_get broken_link_site)
           start seed "example.test" {[seed]} 10 200%Z (Some "text/html; charset=utf-8")
           ["/a"; "mailto:x@example.test"] "http://[::1" ["/b"]).
  - vm_compute. reflexivity.
  - reflexivity.
  - reflexivity.
  - reflexivity.
  - reflexivity.
Defined.

Lemma two_links_resolvable page status_code content_type hrefs :
  lookup_page two_links page = HTTPResponse status_code content_type hrefs ->
  Forall (fun link => is_Some (urljoin page link)) hrefs.
Proof.
  unfold two_links, lookup_page, seed, html.
  destruct (String.eqb_spec "https://example.test/" page) as [<-|_];
    [intros [= <- <- <-]; repeat constructor; vm_compute; eauto|].
  destruct (String.eqb_spec "https://example.test/a" page) as [<-|_];
    [intros [= <- <- <-]; repeat constructor; vm_compute; eauto|].
  destruct (String.eqb_spec "https://example.test/b" page) as [<-|_];
    [intros [= <- <- <-]; repeat constructor; vm_compute; eauto|].
  discriminate.
Qed.

Lemma crawl_complete_below_limit_witness :
  closed_page urlparse urljoin (lookup_page two_links) (netloc (urlparse seed))
              (links_of (run two_links no_robots (mkRequest seed 10)).2)
              "https://example.test/b".
Proof.
  apply (crawl_complete_below_limit urlparse urljoin (requests_get two_links)
           (urlopen no_robots) os_makedirs tree_write (lookup_page two_links)
           (fun w url => eq_refl) two_links_resolvable start (mkRequest seed 10)).
  - vm_compute. reflexivity.
  - vm_compute. reflexivity.
Defined.

Lemma result_size_bound_witness :
  (size (links_of (run two_links no_robots (mkRequest seed 2)).2)
   <= 1 + 2 * Z.to_nat (2 - 1))%nat.
Proof.
  apply (result_size_bound urlparse urljoin (requests_get two_links)
           (urlopen no_robots) os_makedirs tree_write (lookup_page two_links)
           (fun w url => eq_refl)
           start (mkRequest seed 2) 2).
  intros page. unfold two_links, lookup_page, seed, html.
  destruct (String.eqb_spec "https://example.test/" page); [simpl; lia|].
  destruct (String.eqb_spec "https://example.test/a" page); [simpl; lia|].
  destruct (String.eqb_spec "https://example.test/b" page); simpl; lia.
Defined.

Lemma robots_refusal_iff_witness :
  (check_robots_txt urlparse (urlopen disallow_all_robots) start seed).2.1 = false
  /\ (check_robots_txt urlparse (urlopen (HTTPError 503)) start seed).2.1 = false.
Proof.
  split.
  - apply (robots_refusal_iff urlparse (urlopen disallow_all_robots) start seed).
    right. exists (fun _ => false), None. split; reflexivity.
  - apply (robots_refusal_iff urlparse (urlopen (HTTPError 503)) start seed).
    left. exists 503%Z. split; [reflexivity|]. right. right. lia.
Defined.

End MoreRuns.
